(* ===================================================================== *)
(*  configure-aws-credentials: the tag sanitizers, assumeRole and         *)
(*  retryAndBackoff, embedded from src/dist/assumeRole.js and the         *)
(*  helpers module (src/unnamed/part_000).                                *)
(* ===================================================================== *)

From Stdlib Require Import ZArith Floats String Ascii.
From stdpp Require Import gmap strings list fin_maps.

Local Open Scope Z_scope.

(* --------------------------------------------------------------------- *)
(*  JavaScript strings                                                     *)
(* --------------------------------------------------------------------- *)

(** A JavaScript string is a sequence of UTF-16 code units.  [length],
    [slice] and a regular expression without the [u] flag count code
    units; a regular expression with the [u] flag reads code points. *)
Abbreviation jsstring := (list Z).

(** The code units of an ASCII literal of the source. *)
Fixpoint lit (s : string) : jsstring :=
  match s with
  | EmptyString => []
  | String a r => Z.of_N (N_of_ascii a) :: lit r
  end.

(** [s.startsWith(p)] *)
Fixpoint startsWith (s p : jsstring) : bool :=
  match p, s with
  | [], _ => true
  | _ :: _, [] => false
  | c :: p', d :: s' => (c =? d) && startsWith s' p'
  end.

(** Truthiness of a string-valued expression that may be [undefined]:
    [undefined] and the empty string are falsy. *)
Definition truthy (v : option jsstring) : bool :=
  match v with
  | None | Some [] => false
  | Some (_ :: _) => true
  end.

(** Number-to-string conversion of a non-negative integer, as in
    [Tags.length + ' role session tags are being used.']. *)
Definition digit (n : nat) : Z := 48 + Z.of_nat n.

Fixpoint decimal_fuel (fuel n : nat) (acc : jsstring) : jsstring :=
  match fuel with
  | O => acc
  | S fuel' =>
      let acc' := digit (n mod 10) :: acc in
      match (n / 10)%nat with
      | O => acc'
      | q => decimal_fuel fuel' q acc'
      end
  end.

Definition decimal (n : nat) : jsstring := decimal_fuel (S n) n [].

(* --------------------------------------------------------------------- *)
(*  Code points and the Unicode General_Category                           *)
(* --------------------------------------------------------------------- *)

Definition is_lead (u : Z) : bool := (0xD800 <=? u) && (u <=? 0xDBFF).
Definition is_trail (u : Z) : bool := (0xDC00 <=? u) && (u <=? 0xDFFF).

(** The code point of a surrogate pair. *)
Definition pair_cp (hi lo : Z) : Z :=
  0x10000 + (hi - 0xD800) * 0x400 + (lo - 0xDC00).

(** The code points a [u]-flag regular expression reads from a string: a
    lead surrogate followed by a trail surrogate is one code point, any
    other unit (a lone surrogate too) is a code point of its own. *)
Fixpoint codePoints (s : jsstring) : list Z :=
  match s with
  | [] => []
  | u :: t =>
      match t with
      | v :: t' =>
          if is_lead u && is_trail v then pair_cp u v :: codePoints t'
          else u :: codePoints t
      | [] => [u]
      end
  end.

(** Major classes of the Unicode General_Category. *)
Inductive GeneralCategory : Type :=
  | Letter | Mark | Number | Punctuation | Symbol | Separator | Other.

Definition GeneralCategory_eqb (a b : GeneralCategory) : bool :=
  match a, b with
  | Letter, Letter | Mark, Mark | Number, Number
  | Punctuation, Punctuation | Symbol, Symbol
  | Separator, Separator | Other, Other => true
  | _, _ => false
  end.

(** General_Category of the ASCII range (Unicode Character Database). *)
Definition ascii_category (c : Z) : GeneralCategory :=
  if c <? 0x20 then Other                                   (* Cc *)
  else if c =? 0x20 then Separator                          (* Zs *)
  else if (c =? 0x24) || (c =? 0x2B) then Symbol            (* $ + *)
  else if c <? 0x30 then Punctuation                        (* ! .. / *)
  else if c <? 0x3A then Number                             (* 0 .. 9 *)
  else if (0x3C <=? c) && (c <=? 0x3E) then Symbol          (* < = > *)
  else if c <? 0x41 then Punctuation                        (* : ; ? @ *)
  else if c <? 0x5B then Letter                             (* A .. Z *)
  else if (c =? 0x5E) || (c =? 0x60) then Symbol            (* ^ ` *)
  else if c <? 0x61 then Punctuation                        (* [ \ ] _ *)
  else if c <? 0x7B then Letter                             (* a .. z *)
  else if (c =? 0x7C) || (c =? 0x7E) then Symbol            (* | ~ *)
  else if c <? 0x7F then Punctuation                        (* { } *)
  else Other.                                               (* DEL *)

(** The General_Category table belongs to the JavaScript engine, not to
    the repository.  The code points this development computes on carry
    their category of the Unicode Character Database: ASCII, the
    combining diacritical marks U+0300..U+036F (Mn), the surrogates
    U+D800..U+DFFF (Cs) and the Linear B syllables U+10000..U+1000B (Lo).
    Every other code point is left to the parameter [ucd]. *)
Definition general_category (ucd : Z -> GeneralCategory) (c : Z)
  : GeneralCategory :=
  if (0 <=? c) && (c <? 0x80) then ascii_category c
  else if (0x300 <=? c) && (c <=? 0x36F) then Mark
  else if (0xD800 <=? c) && (c <=? 0xDFFF) then Other
  else if (0x10000 <=? c) && (c <=? 0x1000B) then Letter
  else ucd c.

(* --------------------------------------------------------------------- *)
(*  String.prototype.replace with a global one-character pattern           *)
(* --------------------------------------------------------------------- *)

(** [s.replace(/C/gu, r)] for a pattern [C] that matches one code point:
    the string is read code point by code point; a matching code point
    (one or two units) becomes [r], the others keep their units. *)
Fixpoint replaceAllU (matches : Z -> bool) (r : jsstring) (s : jsstring)
  : jsstring :=
  match s with
  | [] => []
  | u :: t =>
      match t with
      | v :: t' =>
          if is_lead u && is_trail v then
            if matches (pair_cp u v) then r ++ replaceAllU matches r t'
            else u :: v :: replaceAllU matches r t'
          else
            if matches u then r ++ replaceAllU matches r t
            else u :: replaceAllU matches r t
      | [] => if matches u then r else [u]
      end
  end.

(** [s.replace(/C/g, r)] for a pattern [C] that matches one code unit
    (no [u] flag). *)
Fixpoint replaceAll (matches : Z -> bool) (r : jsstring) (s : jsstring)
  : jsstring :=
  match s with
  | [] => []
  | u :: t =>
      if matches u then r ++ replaceAll matches r t
      else u :: replaceAll matches r t
  end.

(** [s.slice(0, n)] for [0 <= n]: the first [n] code units. *)
Definition slice0 (n : nat) (s : jsstring) : jsstring := take n s.

(* --------------------------------------------------------------------- *)
(*  The tag sanitizers                                                     *)
(* --------------------------------------------------------------------- *)

Definition SANITIZATION_CHARACTER : jsstring := lit "_".
Definition MAX_TAG_VALUE_LENGTH : nat := 256.

Section Sanitizers.
(** The engine's General_Category outside the ranges fixed above. *)
Variable ucd : Z -> GeneralCategory.

Definition p_L (c : Z) : bool :=
  GeneralCategory_eqb (general_category ucd c) Letter.
Definition p_Z (c : Z) : bool :=
  GeneralCategory_eqb (general_category ucd c) Separator.
Definition p_N (c : Z) : bool :=
  GeneralCategory_eqb (general_category ucd c) Number.
Definition p_M (c : Z) : bool :=
  GeneralCategory_eqb (general_category ucd c) Mark.

(** The class [\p{L}\p{Z}\p{N}_.:/=+\-@] of helpers.ts. *)
Definition variables_class (c : Z) : bool :=
  p_L c || p_Z c || p_N c
  || (c =? 0x5F) || (c =? 0x2E) || (c =? 0x3A) || (c =? 0x2F)
  || (c =? 0x3D) || (c =? 0x2B) || (c =? 0x2D) || (c =? 0x40).

(** The class [\p{L}\p{Z}\p{N}_:/=+.-@-] of assumeRole.js: [.-@] is
    read as the range from U+002E to U+0040, the last [-] is literal. *)
Definition workflow_class (c : Z) : bool :=
  p_L c || p_Z c || p_N c
  || (c =? 0x5F) || (c =? 0x3A) || (c =? 0x2F) || (c =? 0x3D)
  || (c =? 0x2B) || ((0x2E <=? c) && (c <=? 0x40)) || (c =? 0x2D).

(** helpers.ts, sanitizeGitHubVariables *)
Definition sanitizeGitHubVariables (name : jsstring) : jsstring :=
  let nameWithoutSpecialCharacters :=
    replaceAllU (fun c => negb (variables_class c))
                SANITIZATION_CHARACTER name in
  let nameTruncated :=
    slice0 MAX_TAG_VALUE_LENGTH nameWithoutSpecialCharacters in
  nameTruncated.

(** assumeRole.js, sanitizeGithubWorkflowName *)
Definition sanitizeGithubWorkflowName (name : jsstring) : jsstring :=
  let nameWithoutSpecialCharacters :=
    replaceAllU (fun c => negb (workflow_class c))
                SANITIZATION_CHARACTER name in
  let nameTruncated :=
    slice0 MAX_TAG_VALUE_LENGTH nameWithoutSpecialCharacters in
  nameTruncated.

(** assumeRole.js, sanitizeGithubActor: [actor.replace(/\[|\]/g, '_')] *)
Definition sanitizeGithubActor (actor : jsstring) : jsstring :=
  replaceAll (fun u => (u =? 0x5B) || (u =? 0x5D))
             SANITIZATION_CHARACTER actor.

(** The character class of a tag value as the specification words it:
    letter, mark, space separator, digit and the literals
    [_ . : / = + - @] (the separators and numbers are read as the whole
    classes Z and N). *)
Definition spec_tag_class (c : Z) : bool :=
  p_L c || p_M c || p_Z c || p_N c
  || (c =? 0x5F) || (c =? 0x2E) || (c =? 0x3A) || (c =? 0x2F)
  || (c =? 0x3D) || (c =? 0x2B) || (c =? 0x2D) || (c =? 0x40).

(** A tag value as the specification bounds it: at most 256 units, every
    code point in the class. *)
Definition spec_tag_value (v : jsstring) : Prop :=
  (length v <= 256)%nat /\ forallb spec_tag_class (codePoints v) = true.

End Sanitizers.

(* --------------------------------------------------------------------- *)
(*  assumeRole                                                             *)
(* --------------------------------------------------------------------- *)

(** What the code throws: [new Error(message)], or the AssertionError of
    [assert(cond, message)]. *)
Inductive js_error : Type :=
  | Error (message : jsstring)
  | AssertionError (message : jsstring).

(** helpers.ts, errorMessage, on an [Error] *)
Definition errorMessage (e : js_error) : jsstring :=
  match e with
  | Error m | AssertionError m => m
  end.

Record Tag : Type := { Key : jsstring; Value : jsstring }.

(** The values held by the members of the request object. *)
Inductive js_value : Type :=
  | VUndefined
  | VString (s : jsstring)
  | VNumber (n : Z)
  | VTags (tags : list Tag).

#[global] Instance Tag_eq_dec : EqDecision Tag.
Proof. solve_decision. Defined.

#[global] Instance js_value_eq_dec : EqDecision js_value.
Proof. solve_decision. Defined.

(** interface assumeRoleParams *)
Record assumeRoleParams : Type := {
  region : jsstring;
  roleToAssume : jsstring;
  roleDurationSeconds : Z;
  roleSessionName : jsstring;
  roleSkipSessionTagging : option bool;
  sourceAccountId : option jsstring;
  roleExternalId : option jsstring;
  webIdentityTokenFile : option jsstring;
  webIdentityToken : option jsstring;
}.

(** The file boundary: [fs.existsSync] and [fs.promises.readFile(p, 'utf8')],
    the latter resolving to the contents or rejecting with an error. *)
Record FileSystem : Type := {
  existsSync : jsstring -> bool;
  readFile : jsstring -> js_error + jsstring;
}.

(** Node's [path] module, which depends on the platform. *)
Record PathModule : Type := {
  isAbsolute : jsstring -> bool;
  join : jsstring -> jsstring -> jsstring;
}.

(** What a call does before it returns or throws, in order. *)
Inductive event : Type :=
  | Debug (message : jsstring)       (* core.debug *)
  | ExistsSync (path : jsstring)     (* fs.existsSync *)
  | ReadFile (path : jsstring).      (* fs.promises.readFile *)

(** How a call ends: it throws, or it returns [sts.send(command)] for the
    client of [region], the command built from [input]. *)
Inductive outcome : Type :=
  | Threw (e : js_error)
  | Sent (region : jsstring) (input : gmap string js_value).

Definition is_file_access (e : event) : bool :=
  match e with
  | Debug _ => false
  | ExistsSync _ | ReadFile _ => true
  end.

Definition MSG_ENV : jsstring :=
  lit "Missing required environment variables. Are you running in GitHub Actions?".
Definition MSG_ACCOUNT : jsstring :=
  lit "Source Account ID is needed if the Role Name is provided and not the Role Arn.".
Definition MSG_SKIPPED : jsstring :=
  lit "Role session tagging has been skipped.".
Definition MSG_TAGS_USED : jsstring :=
  lit " role session tags are being used.".
Definition MSG_FILE_FLOW : jsstring :=
  lit "webIdentityTokenFile provided. Will call sts:AssumeRoleWithWebIdentity and take session tags from token contents.".
Definition MSG_NO_FILE : jsstring :=
  lit "Web identity token file does not exist: ".
Definition MSG_UNREADABLE : jsstring :=
  lit "Web identity token file could not be read: ".
Definition MSG_NO_SOURCE : jsstring :=
  lit "No web identity token or web identity token file provided.".

(** The six variables read from [process.env], when each is truthy. *)
Definition required_env (env : gmap string jsstring)
  : option (jsstring * jsstring * jsstring * jsstring * jsstring * jsstring) :=
  match env !! "GITHUB_REPOSITORY"%string, env !! "GITHUB_WORKFLOW"%string,
        env !! "GITHUB_ACTION"%string, env !! "GITHUB_ACTOR"%string,
        env !! "GITHUB_SHA"%string, env !! "GITHUB_WORKSPACE"%string with
  | Some repository, Some workflow, Some action, Some actor, Some sha,
    Some workspace =>
      if truthy (Some repository) && truthy (Some workflow)
         && truthy (Some action) && truthy (Some actor)
         && truthy (Some sha) && truthy (Some workspace)
      then Some (repository, workflow, action, actor, sha, workspace)
      else None
  | _, _, _, _, _, _ => None
  end.

(** Lines 29-34: the role ARN, or the failed assertion. *)
Definition resolveRoleArn (roleToAssume : jsstring)
    (sourceAccountId : option jsstring) : js_error + jsstring :=
  if negb (startsWith roleToAssume (lit "arn:aws")) then
    match sourceAccountId with
    | None => inl (AssertionError MSG_ACCOUNT)
    | Some account =>
        inr (lit "arn:aws:iam::" ++ account ++ lit ":role/" ++ roleToAssume)
    end
  else inr roleToAssume.

Section AssumeRole.
Variable ucd : Z -> GeneralCategory.
Variable path : PathModule.

(** Lines 35-45: the session tags. *)
Definition tagArray (repository workflow action actor sha : jsstring)
    (ref : option jsstring) : list Tag :=
  [ {| Key := lit "GitHub"; Value := lit "Actions" |};
    {| Key := lit "Repository"; Value := repository |};
    {| Key := lit "Workflow"; Value := sanitizeGithubWorkflowName ucd workflow |};
    {| Key := lit "Action"; Value := action |};
    {| Key := lit "Actor"; Value := sanitizeGithubActor actor |};
    {| Key := lit "Commit"; Value := sha |} ]
  ++ (if truthy ref
      then [ {| Key := lit "Branch"; Value := default [] ref |} ]
      else []).

(** Lines 53-61: the common members, those that are [undefined] deleted. *)
Definition commonAssumeRoleParams (RoleArn : jsstring)
    (params : assumeRoleParams) (Tags : option (list Tag))
  : gmap string js_value :=
  filter (fun kv => kv.2 <> VUndefined)
    (<["RoleArn"%string := VString RoleArn]>
     (<["RoleSessionName"%string := VString (roleSessionName params)]>
     (<["DurationSeconds"%string := VNumber (roleDurationSeconds params)]>
     (<["Tags"%string := from_option VTags VUndefined Tags]>
     (<["ExternalId"%string :=
          from_option VString VUndefined (roleExternalId params)]> ∅))))).

(** The input of [new AssumeRoleWithWebIdentityCommand] in both flows:
    [delete commonAssumeRoleParams.Tags] and then
    [{ ...commonAssumeRoleParams, WebIdentityToken: token }]. *)
Definition webIdentityInput (common : gmap string js_value)
    (token : jsstring) : gmap string js_value :=
  <["WebIdentityToken"%string := VString token]> (delete "Tags"%string common).

(** The case [!!webIdentityToken] of the switch, lines 64-71. *)
Definition directTokenFlow (params : assumeRoleParams)
    (common : gmap string js_value) (token : jsstring)
  : list event * outcome :=
  ([], Sent (region params) (webIdentityInput common token)).

(** The case [!!webIdentityTokenFile] of the switch, lines 72-92. *)
Definition tokenFileFlow (params : assumeRoleParams) (workspace : jsstring)
    (common : gmap string js_value) (fs : FileSystem) (file : jsstring)
  : list event * outcome :=
  let webIdentityTokenFilePath :=
    if isAbsolute path file then file else join path workspace file in
  if negb (existsSync fs webIdentityTokenFilePath) then
    ([Debug MSG_FILE_FLOW; ExistsSync webIdentityTokenFilePath],
     Threw (Error (MSG_NO_FILE ++ webIdentityTokenFilePath)))
  else
    match readFile fs webIdentityTokenFilePath with
    | inr widt =>
        ([Debug MSG_FILE_FLOW; ExistsSync webIdentityTokenFilePath;
          ReadFile webIdentityTokenFilePath],
         Sent (region params) (webIdentityInput common widt))
    | inl error =>
        ([Debug MSG_FILE_FLOW; ExistsSync webIdentityTokenFilePath;
          ReadFile webIdentityTokenFilePath],
         Threw (Error (MSG_UNREADABLE ++ errorMessage error)))
    end.

(** Lines 62-97: [switch (true)] on the truthiness of the two token
    parameters, then the dispatch. *)
Definition selectFlow (params : assumeRoleParams) (workspace : jsstring)
    (common : gmap string js_value) (fs : FileSystem)
  : list event * outcome :=
  match webIdentityToken params, webIdentityTokenFile params with
  | Some (c :: t), _ => directTokenFlow params common (c :: t)
  | _, Some (c :: f) => tokenFileFlow params workspace common fs (c :: f)
  | _, _ => ([], Threw (Error MSG_NO_SOURCE))
  end.

(** Line 46: [roleSkipSessionTagging ? undefined : tagArray]. *)
Definition sessionTags (params : assumeRoleParams) (tags : list Tag)
  : option (list Tag) :=
  if default false (roleSkipSessionTagging params) then None else Some tags.

(** Lines 47-52. *)
Definition tagsDebug (Tags : option (list Tag)) : event :=
  match Tags with
  | None => Debug MSG_SKIPPED
  | Some l => Debug (decimal (length l) ++ MSG_TAGS_USED)
  end.

(** assumeRole.js, assumeRole: the events of the call and how it ends.
    [env] is [process.env], [fs] the file system. *)
Definition assumeRole (params : assumeRoleParams)
    (env : gmap string jsstring) (fs : FileSystem) : list event * outcome :=
  match required_env env with
  | None => ([], Threw (Error MSG_ENV))
  | Some (repository, workflow, action, actor, sha, workspace) =>
      match resolveRoleArn (roleToAssume params) (sourceAccountId params) with
      | inl e => ([], Threw e)
      | inr RoleArn =>
          let tags :=
            tagArray repository workflow action actor sha
                     (env !! "GITHUB_REF"%string) in
          let Tags := sessionTags params tags in
          let common := commonAssumeRoleParams RoleArn params Tags in
          let '(events, result) := selectFlow params workspace common fs in
          (tagsDebug Tags :: events, result)
      end
  end.

End AssumeRole.

(* --------------------------------------------------------------------- *)
(*  retryAndBackoff                                                        *)
(* --------------------------------------------------------------------- *)

(** How an awaited promise settles. *)
Inductive settled (T E : Type) : Type :=
  | Resolved (value : T)
  | Rejected (err : E).
Arguments Resolved {T E} value.
Arguments Rejected {T E} err.

(** What a retry loop does, in order: it calls [fn] (which settles), it
    awaits [sleep(ms)]. *)
Inductive retry_event (T E : Type) : Type :=
  | Invoked (result : settled T E)
  | Slept (ms : float).
Arguments Invoked {T E} result.
Arguments Slept {T E} ms.

(** JavaScript numbers are IEEE 754 doubles: the delay is computed with
    the kernel's binary64 floats.  [Math.pow(2, n)] for a count [n] is
    [2^n], exact up to [n = 1023] and [Infinity] from [n = 1024]. *)
Definition Math_pow2 (n : nat) : float := Z.ldexp 1%float (Z.of_nat n).

Section Retry.
Context {World T E : Type}.
(** [Math.random()]: a double of [[0, 1)]. *)
Variable random : World -> float * World.
(** The module's current [sleep] (defaultSleep, or what withsleep set). *)
Variable sleep : float -> World -> World.

(** helpers.ts, retryAndBackoff.  The recursion of the source need not
    end (it does not when [retries] starts at or above [maxRetries]), so
    the depth of the recursion is bounded by [fuel]; [None] is a run that
    needs more. *)
Fixpoint retryAndBackoff (fuel : nat) (fn : World -> settled T E * World)
    (isRetryable : bool) (retries maxRetries : nat) (base : float) (w : World)
  : option (settled T E * list (retry_event T E) * World) :=
  match fuel with
  | O => None
  | S fuel' =>
      match fn w with
      | (Resolved v, w1) => Some (Resolved v, [Invoked (Resolved v)], w1)
      | (Rejected err, w1) =>
          if negb isRetryable then
            Some (Rejected err, [Invoked (Rejected err)], w1)
          else
            let '(r, w2) := random w1 in
            let ms := (r * (Math_pow2 retries * base))%float in
            let w3 := sleep ms w2 in
            let retries' := S retries in
            if Nat.eqb retries' maxRetries then
              Some (Rejected err, [Invoked (Rejected err); Slept ms], w3)
            else
              match retryAndBackoff fuel' fn isRetryable retries'
                                    maxRetries base w3 with
              | Some (res, evs, w') =>
                  Some (res, Invoked (Rejected err) :: Slept ms :: evs, w')
              | None => None
              end
      end
  end.

(** What one failed attempt of a retryable run does after [fn] has
    settled in the world [w]: it draws the random number, asks [sleep]
    for the delay, and goes on in the world that [sleep] returns. *)
Definition after_failed_call (fn : World -> settled T E * World)
    (retries : nat) (base : float) (w : World) : float * World :=
  let '(r, w2) := random (fn w).2 in
  let ms := (r * (Math_pow2 retries * base))%float in
  (ms, sleep ms w2).

(** The world in which the call number [k] (from 0) of a run is made when
    the calls before it have all failed. *)
Fixpoint attempt_world (fn : World -> settled T E * World) (k retries : nat)
    (base : float) (w : World) : World :=
  match k with
  | O => w
  | S k' =>
      attempt_world fn k' (S retries) base
        (after_failed_call fn retries base w).2
  end.

(** The events of [n] failed attempts in a row: each call of [fn], in the
    world it is made in, and the sleep that follows it. *)
Fixpoint failed_attempts (fn : World -> settled T E * World) (n retries : nat)
    (base : float) (w : World) : list (retry_event T E) :=
  match n with
  | O => []
  | S n' =>
      Invoked (fn w).1 :: Slept (after_failed_call fn retries base w).1
        :: failed_attempts fn n' (S retries) base
             (after_failed_call fn retries base w).2
  end.

End Retry.

(* --------------------------------------------------------------------- *)
(*  Shapes of sanitized strings                                            *)
(* --------------------------------------------------------------------- *)

(** The last unit of the string is a lead surrogate. *)
Definition ends_with_lead (s : jsstring) : bool :=
  match last s with
  | Some u => is_lead u
  | None => false
  end.

(** A string all of whose code points are in [cls], read unit by unit:
    single units that are no lead surrogate, and whole surrogate pairs. *)
Inductive clean (cls : Z -> bool) : jsstring -> Prop :=
  | clean_nil : clean cls []
  | clean_unit u r :
      cls u = true -> is_lead u = false -> clean cls r -> clean cls (u :: r)
  | clean_pair u v r :
      is_lead u = true -> is_trail v = true -> cls (pair_cp u v) = true ->
      clean cls r -> clean cls (u :: v :: r).

(** What the replacement does to one code point. *)
Definition subst_cp (cls : Z -> bool) (c : Z) : Z :=
  if cls c then c else 0x5F.

(** The four characters that the range [.-@] of workflow_class admits
    beyond variables_class: [; < > ?]. *)
Definition range_only (c : Z) : bool :=
  (c =? 0x3B) || (c =? 0x3C) || (c =? 0x3E) || (c =? 0x3F).

(** What sanitizeGithubActor does to one unit. *)
Definition bracket_subst (u : Z) : Z :=
  if (u =? 0x5B) || (u =? 0x5D) then 0x5F else u.

(** The value of the first tag with key [k]. *)
Definition tag_value (k : jsstring) (tags : list Tag) : option jsstring :=
  (fun r => Value r.2) <$> list_find (fun t => Key t = k) tags.

(** [{ ...params, webIdentityToken: t }] and
    [{ ...params, webIdentityTokenFile: f }]. *)
Definition with_token (params : assumeRoleParams) (t : option jsstring)
  : assumeRoleParams :=
  {| region := region params; roleToAssume := roleToAssume params;
     roleDurationSeconds := roleDurationSeconds params;
     roleSessionName := roleSessionName params;
     roleSkipSessionTagging := roleSkipSessionTagging params;
     sourceAccountId := sourceAccountId params;
     roleExternalId := roleExternalId params;
     webIdentityTokenFile := webIdentityTokenFile params;
     webIdentityToken := t |}.

Definition with_token_file (params : assumeRoleParams) (f : option jsstring)
  : assumeRoleParams :=
  {| region := region params; roleToAssume := roleToAssume params;
     roleDurationSeconds := roleDurationSeconds params;
     roleSessionName := roleSessionName params;
     roleSkipSessionTagging := roleSkipSessionTagging params;
     sourceAccountId := sourceAccountId params;
     roleExternalId := roleExternalId params;
     webIdentityTokenFile := f;
     webIdentityToken := webIdentityToken params |}.

(** The call got past the environment check and the role resolution with
    these values. *)
Definition reaches_flow_selection (params : assumeRoleParams)
    (env : gmap string jsstring)
    (repository workflow action actor sha workspace RoleArn : jsstring)
  : Prop :=
  required_env env = Some (repository, workflow, action, actor, sha, workspace)
  /\ resolveRoleArn (roleToAssume params) (sourceAccountId params) = inr RoleArn.

(** Readings of the events of a retry loop: what each call of [fn]
    settled to, and the delays asked of [sleep], both in order. *)
Definition results {T E : Type} (evs : list (retry_event T E))
  : list (settled T E) :=
  omap (fun ev => match ev with Invoked r => Some r | Slept _ => None end) evs.

Definition delays {T E : Type} (evs : list (retry_event T E)) : list float :=
  omap (fun ev => match ev with Invoked _ => None | Slept ms => Some ms end) evs.

Definition is_rejected {T E : Type} (r : settled T E) : bool :=
  match r with
  | Rejected _ => true
  | Resolved _ => false
  end.

(** How often [fn] was called, and how often it failed. *)
Definition invocations {T E : Type} (evs : list (retry_event T E)) : nat :=
  length (results evs).

Definition rejections {T E : Type} (evs : list (retry_event T E)) : nat :=
  length (filter (fun r => is_rejected r = true) (results evs)).

(* --------------------------------------------------------------------- *)
(*  Concrete inputs                                                        *)
(* --------------------------------------------------------------------- *)

(** 255 times [a], then U+10000 (a Linear B letter, two code units). *)
Definition cut_pair_input : jsstring := replicate 255 0x61 ++ [0xD800; 0xDC00].

(** A table that leaves the code points it is asked about unassigned. *)
Definition ucd_unassigned : Z -> GeneralCategory := fun _ => Other.

(** POSIX [path.isAbsolute]; [path.join] of two segments that need no
    normalisation. *)
Definition posix_path : PathModule :=
  {| isAbsolute := fun p => match p with 0x2F :: _ => true | _ => false end;
     join := fun a b => a ++ lit "/" ++ b |}.

Definition sample_env : gmap string jsstring :=
  <["GITHUB_REPOSITORY"%string := lit "octo/repo"]>
  (<["GITHUB_WORKFLOW"%string := lit "CI (main)"]>
  (<["GITHUB_ACTION"%string := lit "configure"]>
  (<["GITHUB_ACTOR"%string := lit "dependabot[bot]"]>
  (<["GITHUB_SHA"%string := lit "0123abc"]>
  (<["GITHUB_WORKSPACE"%string := lit "/home/runner/work"]> ∅))))).

Definition sample_params : assumeRoleParams :=
  {| region := lit "us-east-1";
     roleToAssume := lit "arn:aws:iam::111122223333:role/deploy";
     roleDurationSeconds := 3600;
     roleSessionName := lit "GitHubActions";
     roleSkipSessionTagging := None;
     sourceAccountId := None;
     roleExternalId := None;
     webIdentityTokenFile := Some (lit "token.jwt");
     webIdentityToken := Some (lit "eyJhbGciOi") |}.

(** A role given by name, with no account to qualify it. *)
Definition short_role_params : assumeRoleParams :=
  {| region := lit "us-east-1";
     roleToAssume := lit "deploy";
     roleDurationSeconds := 3600;
     roleSessionName := lit "GitHubActions";
     roleSkipSessionTagging := None;
     sourceAccountId := None;
     roleExternalId := None;
     webIdentityTokenFile := None;
     webIdentityToken := Some (lit "eyJhbGciOi") |}.

(** A file system with no file at all. *)
Definition empty_fs : FileSystem :=
  {| existsSync := fun _ => false;
     readFile := fun _ => inl (Error (lit "ENOENT")) |}.

(** An actor name of 257 units that ends in [!]. *)
Definition long_actor : jsstring := replicate 256 0x61 ++ lit "!".

(** A world that counts the calls of [fn]; an operation that fails every
    time, its error the number of the call; a random source stuck at 1/2;
    a sleep that returns at once. *)
Definition failing_fn : nat -> settled unit nat * nat :=
  fun w => (Rejected w, S w).
Definition half_random : nat -> float * nat := fun w => (0.5%float, w).
Definition no_sleep : float -> nat -> nat := fun _ w => w.

(** A world that counts the calls of [fn] and keeps the delays that
    [sleep] was asked for, in order; the same operation and random source
    on it, and a sleep that records its delay. *)
Definition counting_fn : nat * list float -> settled unit nat * (nat * list float) :=
  fun w => (Rejected w.1, (S w.1, w.2)).
Definition counting_random : nat * list float -> float * (nat * list float) :=
  fun w => (0.5%float, w).
Definition recording_sleep : float -> nat * list float -> nat * list float :=
  fun ms w => (w.1, w.2 ++ [ms]).

(* --------------------------------------------------------------------- *)
(*  helpers.ts: exporting credentials and the account id                   *)
(* --------------------------------------------------------------------- *)

(** What the helpers ask of [@actions/core], in order. *)
Inductive core_event : Type :=
  | SetSecret (value : jsstring)                      (* core.setSecret *)
  | ExportVariable (name : string) (value : jsstring) (* core.exportVariable *)
  | SetOutput (name : string) (value : jsstring).     (* core.setOutput *)

(** [Partial<Credentials>], the members that exportCredentials reads. *)
Record Credentials : Type := {
  AccessKeyId : option jsstring;
  SecretAccessKey : option jsstring;
  SessionToken : option jsstring;
}.

(** helpers.ts, exportCredentials; [creds?.X] is [undefined] when [creds]
    is. *)
Definition exportCredentials (creds : option Credentials)
    (env : gmap string jsstring) : list core_event :=
  (match creds ≫= AccessKeyId with
   | Some (c :: k) =>
       [SetSecret (c :: k); ExportVariable "AWS_ACCESS_KEY_ID" (c :: k)]
   | _ => []
   end)
  ++ (match creds ≫= SecretAccessKey with
      | Some (c :: k) =>
          [SetSecret (c :: k); ExportVariable "AWS_SECRET_ACCESS_KEY" (c :: k)]
      | _ => []
      end)
  ++ (match creds ≫= SessionToken with
      | Some (c :: k) =>
          [SetSecret (c :: k); ExportVariable "AWS_SESSION_TOKEN" (c :: k)]
      | _ =>
          if truthy (env !! "AWS_SESSION_TOKEN"%string)
          then [ExportVariable "AWS_SESSION_TOKEN" []]
          else []
      end).

Definition MSG_NO_ACCOUNT : jsstring :=
  lit "Could not get Account ID from STS. Did you set credentials?".

(** helpers.ts, exportAccountId.  [identity] is how
    [client.send(new GetCallerIdentityCommand({}))] settles: rejected with
    an error, or resolved with a response whose [Account] may be missing.
    The result is the events and what the call throws or returns. *)
Definition exportAccountId (identity : js_error + option jsstring)
    (maskAccountId : option jsstring) : list core_event * (js_error + jsstring) :=
  match identity with
  | inl e => ([], inl e)
  | inr (Some (c :: a)) =>
      let accountId := c :: a in
      ((if truthy maskAccountId then [SetSecret accountId] else [])
       ++ [SetOutput "aws-account-id" accountId],
       inr accountId)
  | inr _ => ([], inl (Error MSG_NO_ACCOUNT))
  end.

(* --------------------------------------------------------------------- *)
(*  Readings used by the further properties                                *)
(* --------------------------------------------------------------------- *)

(** The variables of [process.env] that line 26 of assumeRole tests. *)
Definition required_names : list string :=
  ["GITHUB_REPOSITORY"; "GITHUB_WORKFLOW"; "GITHUB_ACTION"; "GITHUB_ACTOR";
   "GITHUB_SHA"; "GITHUB_WORKSPACE"]%string.

(** The members of a request on the wire, written out. *)
Definition wireRequest (RoleArn : jsstring) (params : assumeRoleParams)
    (token : jsstring) : gmap string js_value :=
  <["WebIdentityToken"%string := VString token]>
  (<["RoleArn"%string := VString RoleArn]>
  (<["RoleSessionName"%string := VString (roleSessionName params)]>
  (<["DurationSeconds"%string := VNumber (roleDurationSeconds params)]>
  (match roleExternalId params with
   | Some e => {["ExternalId"%string := VString e]}
   | None => ∅
   end)))).

(** [{ ...params, roleSkipSessionTagging: b }] *)
Definition with_skip (params : assumeRoleParams) (b : option bool)
  : assumeRoleParams :=
  {| region := region params; roleToAssume := roleToAssume params;
     roleDurationSeconds := roleDurationSeconds params;
     roleSessionName := roleSessionName params;
     roleSkipSessionTagging := b;
     sourceAccountId := sourceAccountId params;
     roleExternalId := roleExternalId params;
     webIdentityTokenFile := webIdentityTokenFile params;
     webIdentityToken := webIdentityToken params |}.

(** Lines 73-75: the token file, resolved against the workspace unless
    it is absolute. *)
Definition token_file_path (path : PathModule) (workspace file : jsstring)
  : jsstring :=
  if isAbsolute path file then file else join path workspace file.

(** The debug line of lines 47-52 for a call with this environment. *)
Definition tags_line (ucd : Z -> GeneralCategory) (params : assumeRoleParams)
    (env : gmap string jsstring)
    (repository workflow action actor sha : jsstring) : event :=
  tagsDebug
    (sessionTags params
       (tagArray ucd repository workflow action actor sha
          (env !! "GITHUB_REF"%string))).

(** The ways a call of assumeRole can end, each with the condition on the
    parameters, the environment and the file system under which it ends
    so, and with its events. *)
Inductive assumeRole_ending (ucd : Z -> GeneralCategory) (path : PathModule)
    (params : assumeRoleParams) (env : gmap string jsstring)
    (fs : FileSystem) : list event * outcome -> Prop :=
  | EndsEnvironment :
      required_env env = None ->
      assumeRole_ending ucd path params env fs ([], Threw (Error MSG_ENV))
  | EndsAccountAssertion :
      is_Some (required_env env) ->
      startsWith (roleToAssume params) (lit "arn:aws") = false ->
      sourceAccountId params = None ->
      assumeRole_ending ucd path params env fs
        ([], Threw (AssertionError MSG_ACCOUNT))
  | EndsDirectToken rp wf ac at' sha ws arn token :
      reaches_flow_selection params env rp wf ac at' sha ws arn ->
      webIdentityToken params = Some token -> token <> [] ->
      assumeRole_ending ucd path params env fs
        ([tags_line ucd params env rp wf ac at' sha],
         Sent (region params) (wireRequest arn params token))
  | EndsFileMissing rp wf ac at' sha ws arn file :
      reaches_flow_selection params env rp wf ac at' sha ws arn ->
      truthy (webIdentityToken params) = false ->
      webIdentityTokenFile params = Some file -> file <> [] ->
      existsSync fs (token_file_path path ws file) = false ->
      assumeRole_ending ucd path params env fs
        ([tags_line ucd params env rp wf ac at' sha; Debug MSG_FILE_FLOW;
          ExistsSync (token_file_path path ws file)],
         Threw (Error (MSG_NO_FILE ++ token_file_path path ws file)))
  | EndsFileToken rp wf ac at' sha ws arn file widt :
      reaches_flow_selection params env rp wf ac at' sha ws arn ->
      truthy (webIdentityToken params) = false ->
      webIdentityTokenFile params = Some file -> file <> [] ->
      existsSync fs (token_file_path path ws file) = true ->
      readFile fs (token_file_path path ws file) = inr widt ->
      assumeRole_ending ucd path params env fs
        ([tags_line ucd params env rp wf ac at' sha; Debug MSG_FILE_FLOW;
          ExistsSync (token_file_path path ws file);
          ReadFile (token_file_path path ws file)],
         Sent (region params) (wireRequest arn params widt))
  | EndsFileUnreadable rp wf ac at' sha ws arn file error :
      reaches_flow_selection params env rp wf ac at' sha ws arn ->
      truthy (webIdentityToken params) = false ->
      webIdentityTokenFile params = Some file -> file <> [] ->
      existsSync fs (token_file_path path ws file) = true ->
      readFile fs (token_file_path path ws file) = inl error ->
      assumeRole_ending ucd path params env fs
        ([tags_line ucd params env rp wf ac at' sha; Debug MSG_FILE_FLOW;
          ExistsSync (token_file_path path ws file);
          ReadFile (token_file_path path ws file)],
         Threw (Error (MSG_UNREADABLE ++ errorMessage error)))
  | EndsNoSource rp wf ac at' sha ws arn :
      reaches_flow_selection params env rp wf ac at' sha ws arn ->
      truthy (webIdentityToken params) = false ->
      truthy (webIdentityTokenFile params) = false ->
      assumeRole_ending ucd path params env fs
        ([tags_line ucd params env rp wf ac at' sha],
         Threw (Error MSG_NO_SOURCE)).

(** The file accesses among the events of a call. *)
Definition file_accesses (evs : list event) : list event :=
  List.filter is_file_access evs.

(** The keys of a tag list, in order. *)
Definition tag_keys (tags : list Tag) : list jsstring := map Key tags.

(** A file system with one readable file. *)
Definition one_file_fs (p content : jsstring) : FileSystem :=
  {| existsSync := fun q => bool_decide (q = p);
     readFile := fun q =>
       if bool_decide (q = p) then inr content
       else inl (Error (lit "ENOENT")) |}.

(** A file system where every path exists and no read succeeds. *)
Definition unreadable_fs : FileSystem :=
  {| existsSync := fun _ => true;
     readFile := fun _ => inl (Error (lit "EACCES: permission denied")) |}.

Definition sample_creds : Credentials :=
  {| AccessKeyId := Some (lit "AKIAEXAMPLE");
     SecretAccessKey := Some (lit "wJalrXUtnFEMI");
     SessionToken := None |}.

(* ===================================================================== *)
(*  Theorems                                                               *)
(* ===================================================================== *)

Lemma jsstring_pair_ind (P : jsstring -> Prop) :
  P [] -> (forall u, P [u]) ->
  (forall u v t, P t -> P (v :: t) -> P (u :: v :: t)) ->
  forall s, P s.
Proof.
  intros Hnil Hone Hstep s.
  enough (P s /\ forall u, P (u :: s)) by tauto.
  induction s as [|v t [IH1 IH2]]; split; auto.
Qed.

Lemma lit_underscore : SANITIZATION_CHARACTER = [0x5F].
Proof. reflexivity. Qed.

Lemma lead_not_trail u : is_lead u = true -> is_trail u = false.
Proof. unfold is_lead, is_trail. lia. Qed.

Section ReplaceClass.
Variable cls : Z -> bool.
Hypothesis cls_underscore : cls 0x5F = true.
Hypothesis cls_lead : forall u, is_lead u = true -> cls u = false.

Let R := replaceAllU (fun c => negb (cls c)) SANITIZATION_CHARACTER.

Lemma R_nil : R [] = [].
Proof. reflexivity. Qed.

Lemma R_pair u v t :
  is_lead u = true -> is_trail v = true ->
  R (u :: v :: t) =
    if cls (pair_cp u v) then u :: v :: R t else 0x5F :: R t.
Proof.
  intros Hu Hv. unfold R. simpl. rewrite Hu, Hv. simpl.
  destruct (cls (pair_cp u v)); reflexivity.
Qed.

Lemma R_unit u t :
  match t with v :: _ => is_lead u && is_trail v | [] => false end = false ->
  R (u :: t) = subst_cp cls u :: R t.
Proof.
  intros H. unfold R, subst_cp. destruct t as [|v t'].
  - simpl. destruct (cls u); reflexivity.
  - simpl in *. rewrite H. destruct (cls u); reflexivity.
Qed.

Lemma R_not_lead u t : is_lead u = false -> R (u :: t) = subst_cp cls u :: R t.
Proof. intros H. apply R_unit. destruct t; [done|]. by rewrite H. Qed.

Lemma subst_cp_cls u : cls (subst_cp cls u) = true.
Proof. unfold subst_cp. destruct (cls u) eqn:E; auto. Qed.

Lemma subst_cp_not_lead u : is_lead (subst_cp cls u) = false.
Proof.
  unfold subst_cp. destruct (cls u) eqn:E; [|reflexivity].
  destruct (is_lead u) eqn:L; [|reflexivity].
  rewrite (cls_lead _ L) in E. discriminate.
Qed.

Lemma subst_cp_id u : cls u = true -> subst_cp cls u = u.
Proof. unfold subst_cp. by intros ->. Qed.

Lemma R_clean s : clean cls (R s).
Proof.
  induction s as [| u | u v t IHt IHvt] using jsstring_pair_ind.
  - constructor.
  - rewrite R_unit by done. rewrite R_nil.
    constructor; auto using subst_cp_cls, subst_cp_not_lead, clean_nil.
  - destruct (is_lead u && is_trail v) eqn:E.
    + apply andb_prop in E as [Hu Hv]. rewrite R_pair by done.
      destruct (cls (pair_cp u v)) eqn:Ec.
      * by constructor.
      * constructor; auto.
    + rewrite R_unit by done.
      constructor; auto using subst_cp_cls, subst_cp_not_lead.
Qed.

Lemma clean_fixed r : clean cls r -> R r = r.
Proof.
  induction 1 as [| u r Hc Hl _ IH | u v r Hu Hv Hc _ IH].
  - reflexivity.
  - rewrite R_not_lead by done. by rewrite subst_cp_id, IH.
  - rewrite R_pair by done. by rewrite Hc, IH.
Qed.

Lemma R_idempotent s : R (R s) = R s.
Proof. apply clean_fixed, R_clean. Qed.

Lemma clean_codePoints r :
  clean cls r -> forallb cls (codePoints r) = true.
Proof.
  induction 1 as [| u r Hc Hl _ IH | u v r Hu Hv Hc _ IH].
  - reflexivity.
  - destruct r as [|v r']; simpl in *.
    + by rewrite Hc.
    + rewrite Hl. simpl. rewrite Hc. exact IH.
  - simpl. rewrite Hu, Hv. simpl. by rewrite Hc, IH.
Qed.

Lemma codePoints_not_lead u t :
  is_lead u = false -> codePoints (u :: t) = u :: codePoints t.
Proof. intros H. destruct t; simpl; [done|]. by rewrite H. Qed.

(** The replacement, code point by code point. *)
Lemma codePoints_R s : codePoints (R s) = map (subst_cp cls) (codePoints s).
Proof.
  induction s as [| u | u v t IHt IHvt] using jsstring_pair_ind.
  - reflexivity.
  - rewrite R_unit by done. reflexivity.
  - destruct (is_lead u && is_trail v) eqn:E.
    + pose proof E as E'. apply andb_prop in E' as [Hu Hv].
      rewrite R_pair by done.
      change (codePoints (u :: v :: t))
        with (if is_lead u && is_trail v then pair_cp u v :: codePoints t
              else u :: codePoints (v :: t)).
      rewrite E. simpl map. unfold subst_cp at 1.
      destruct (cls (pair_cp u v)) eqn:Ec.
      * change (codePoints (u :: v :: R t))
          with (if is_lead u && is_trail v then pair_cp u v :: codePoints (R t)
                else u :: codePoints (v :: R t)).
        by rewrite E, IHt.
      * rewrite codePoints_not_lead by reflexivity. by rewrite IHt.
    + rewrite R_unit by done.
      rewrite codePoints_not_lead by apply subst_cp_not_lead.
      change (codePoints (u :: v :: t))
        with (if is_lead u && is_trail v then pair_cp u v :: codePoints t
              else u :: codePoints (v :: t)).
      by rewrite E, IHvt.
Qed.

(** A prefix of a clean string is clean, or a clean string followed by
    the lead surrogate of a pair that the cut went through. *)
Lemma clean_take r :
  clean cls r ->
  forall n, clean cls (take n r) \/
            exists p u, take n r = p ++ [u] /\ clean cls p /\ is_lead u = true.
Proof.
  induction 1 as [| u r Hc Hl Hr IH | u v r Hu Hv Hc Hr IH]; intros n.
  - left. rewrite take_nil. constructor.
  - destruct n as [|n]; [left; constructor|]. simpl.
    destruct (IH n) as [Hcl | (p & w & Hp & Hcl & Hw)].
    + left. by constructor.
    + right. exists (u :: p), w. rewrite Hp. split; [done|].
      split; [by constructor | done].
  - destruct n as [|[|n]]; simpl.
    + left. constructor.
    + right. exists [], u. split; [done|]. split; [constructor | done].
    + destruct (IH n) as [Hcl | (p & w & Hp & Hcl & Hw)].
      * left. by constructor.
      * right. exists (u :: v :: p), w. rewrite Hp. split; [done|].
        split; [by constructor | done].
Qed.

Lemma R_snoc_lead p u :
  clean cls p -> is_lead u = true -> R (p ++ [u]) = p ++ [0x5F].
Proof.
  intros Hp Hu. induction Hp as [| x r Hc Hl _ IH | x v r Hx Hv Hc _ IH].
  - simpl. rewrite R_unit by done. rewrite R_nil.
    unfold subst_cp. by rewrite (cls_lead _ Hu).
  - simpl. rewrite R_not_lead by done. by rewrite subst_cp_id, IH.
  - simpl. rewrite R_pair by done. by rewrite Hc, IH.
Qed.

Lemma clean_not_ends_with_lead r : clean cls r -> ends_with_lead r = false.
Proof.
  unfold ends_with_lead.
  induction 1 as [| u r Hc Hl _ IH | u v r Hu Hv Hc _ IH].
  - reflexivity.
  - destruct r as [|x r']; simpl; [done|]. exact IH.
  - destruct r as [|x r']; simpl.
    + destruct (is_lead v) eqn:E; [|done].
      apply lead_not_trail in E. congruence.
    + exact IH.
Qed.

Lemma ends_with_lead_snoc p u : ends_with_lead (p ++ [u]) = is_lead u.
Proof. unfold ends_with_lead. by rewrite last_snoc. Qed.

(** [slice(0, n)] of the replaced string: its shape, and what a second
    replacement makes of it. *)
Lemma take_R_shape n s :
  (ends_with_lead (take n (R s)) = false /\ clean cls (take n (R s))) \/
  (ends_with_lead (take n (R s)) = true /\
   exists p u, take n (R s) = p ++ [u] /\ clean cls p /\ is_lead u = true).
Proof.
  destruct (clean_take _ (R_clean s) n) as [Hcl | (p & u & Hp & Hcl & Hu)].
  - left. split; [by apply clean_not_ends_with_lead | done].
  - right. split; [by rewrite Hp, ends_with_lead_snoc | eauto].
Qed.

End ReplaceClass.

(* --------------------------------------------------------------------- *)
(*  The two character classes                                              *)
(* --------------------------------------------------------------------- *)

Section Classes.
Variable ucd : Z -> GeneralCategory.

Lemma lead_category u : is_lead u = true -> general_category ucd u = Other.
Proof.
  unfold is_lead, general_category. intros H.
  repeat (case_match; try lia; try reflexivity).
Qed.

Lemma variables_class_underscore : variables_class ucd 0x5F = true.
Proof. reflexivity. Qed.

Lemma workflow_class_underscore : workflow_class ucd 0x5F = true.
Proof. reflexivity. Qed.

Lemma variables_class_lead u :
  is_lead u = true -> variables_class ucd u = false.
Proof.
  intros H. unfold variables_class, p_L, p_Z, p_N.
  rewrite (lead_category _ H). unfold is_lead in H. simpl.
  repeat (apply orb_false_intro); lia.
Qed.

Lemma workflow_class_lead u :
  is_lead u = true -> workflow_class ucd u = false.
Proof.
  intros H. unfold workflow_class, p_L, p_Z, p_N.
  rewrite (lead_category _ H). unfold is_lead in H. simpl.
  repeat (apply orb_false_intro); lia.
Qed.

(** Every character that helpers.ts keeps is in the class of the
    specification. *)
Lemma variables_class_spec c :
  variables_class ucd c = true -> spec_tag_class ucd c = true.
Proof.
  unfold variables_class, spec_tag_class.
  destruct (p_L ucd c), (p_Z ucd c), (p_N ucd c), (p_M ucd c); simpl; auto.
Qed.

(** A mark is not kept: the class of the code has no [\p{M}]. *)
Lemma mark_not_kept c : p_M ucd c = true -> variables_class ucd c = false.
Proof.
  unfold variables_class, p_M, p_L, p_Z, p_N. intros H.
  destruct (general_category ucd c) eqn:E; try discriminate. simpl.
  repeat (apply orb_false_intro); try reflexivity;
    apply Z.eqb_neq; intros ->; discriminate E.
Qed.

Lemma ascii_digit_number c :
  0x30 <= c <= 0x39 -> p_N ucd c = true.
Proof.
  intros H. unfold p_N, general_category, ascii_category.
  repeat (case_match; simpl in *; try reflexivity; try lia).
Qed.

(** Outside [; < > ?] the two classes agree. *)
Lemma workflow_class_variables c :
  range_only c = false -> workflow_class ucd c = variables_class ucd c.
Proof.
  unfold range_only, workflow_class, variables_class. intros H.
  destruct (p_L ucd c); [reflexivity|].
  destruct (p_Z ucd c); [reflexivity|].
  destruct (p_N ucd c) eqn:EN; [reflexivity|]. simpl.
  destruct ((0x2E <=? c) && (c <=? 0x40)) eqn:E.
  - destruct (decide (0x30 <= c <= 0x39)) as [D|D].
    + rewrite (ascii_digit_number _ D) in EN. discriminate.
    + assert (c = 0x2E \/ c = 0x2F \/ c = 0x3A \/ c = 0x3D \/ c = 0x40)
        as [->|[->|[->|[->| ->]]]] by lia; reflexivity.
  - assert (c <> 0x2E) by lia.
    destruct (c =? 0x5F), (c =? 0x3A), (c =? 0x2F), (c =? 0x3D),
      (c =? 0x2B), (c =? 0x2D), (c =? 0x40) eqn:?, (c =? 0x2E) eqn:?;
      simpl; try reflexivity; lia.
Qed.

Lemma pair_cp_not_range_only u v :
  is_lead u = true -> is_trail v = true -> range_only (pair_cp u v) = false.
Proof.
  unfold is_lead, is_trail, pair_cp, range_only. intros Hu Hv.
  repeat (apply orb_false_intro); lia.
Qed.

(** On a name without [; < > ?] the two sanitizers replace alike. *)
Lemma replace_workflow_variables s :
  forallb (fun u => negb (range_only u)) s = true ->
  replaceAllU (fun c => negb (workflow_class ucd c)) SANITIZATION_CHARACTER s =
  replaceAllU (fun c => negb (variables_class ucd c)) SANITIZATION_CHARACTER s.
Proof.
  induction s as [| u | u v t IHt IHvt] using jsstring_pair_ind; intros H.
  - reflexivity.
  - simpl in *. rewrite workflow_class_variables; [reflexivity|].
    destruct (range_only u); [discriminate | reflexivity].
  - assert (range_only u = false /\
            forallb (fun u => negb (range_only u)) (v :: t) = true) as [Hu Hvt].
    { simpl in H. apply andb_prop in H as [H1 H2].
      split; [by destruct (range_only u) | exact H2]. }
    assert (forallb (fun u => negb (range_only u)) t = true) as Ht.
    { simpl in Hvt. by apply andb_prop in Hvt as [_ ?]. }
    change (replaceAllU ?m ?r (u :: v :: t)) with
      (if is_lead u && is_trail v then
         if m (pair_cp u v) then r ++ replaceAllU m r t
         else u :: v :: replaceAllU m r t
       else if m u then r ++ replaceAllU m r (v :: t)
            else u :: replaceAllU m r (v :: t)).
    cbv beta. rewrite (IHt Ht), (IHvt Hvt).
    rewrite (workflow_class_variables u Hu).
    destruct (is_lead u && is_trail v) eqn:E; [|reflexivity].
    apply andb_prop in E as [Eu Ev].
    by rewrite (workflow_class_variables _ (pair_cp_not_range_only _ _ Eu Ev)).
Qed.

End Classes.

(* --------------------------------------------------------------------- *)
(*  The tag sanitizers                                                     *)
(* --------------------------------------------------------------------- *)

Lemma forallb_mono (f g : Z -> bool) (l : list Z) :
  (forall c, f c = true -> g c = true) ->
  forallb f l = true -> forallb g l = true.
Proof.
  intros Hfg. induction l as [|c l IH]; simpl; [done|].
  intros H. apply andb_prop in H as [H1 H2]. by rewrite (Hfg _ H1), IH.
Qed.

Lemma replaceAllU_length (matches : Z -> bool) (s : jsstring) :
  (length (replaceAllU matches SANITIZATION_CHARACTER s) <= length s)%nat.
Proof.
  induction s as [| u | u v t IHt IHvt] using jsstring_pair_ind.
  - reflexivity.
  - simpl. destruct (matches u); simpl; lia.
  - change (replaceAllU matches SANITIZATION_CHARACTER (u :: v :: t)) with
      (if is_lead u && is_trail v then
         if matches (pair_cp u v)
         then SANITIZATION_CHARACTER ++ replaceAllU matches SANITIZATION_CHARACTER t
         else u :: v :: replaceAllU matches SANITIZATION_CHARACTER t
       else if matches u
            then SANITIZATION_CHARACTER
                   ++ replaceAllU matches SANITIZATION_CHARACTER (v :: t)
            else u :: replaceAllU matches SANITIZATION_CHARACTER (v :: t)).
    rewrite lit_underscore in *.
    repeat case_match; simpl in *; lia.
Qed.

(** What the regular expression of sanitizeGithubWorkflowName lets
    through: the range [.-@] keeps [; < > ?]. *)
Lemma workflow_name_range_kept (ucd : Z -> GeneralCategory) :
  sanitizeGithubWorkflowName ucd (lit "a;b<c>d?") = lit "a;b<c>d?" /\
  sanitizeGitHubVariables ucd (lit "a;b<c>d?") = lit "a_b_c_d_".
Proof. split; reflexivity. Qed.

(** A combining mark is replaced. *)
Lemma combining_mark_replaced (ucd : Z -> GeneralCategory) :
  sanitizeGitHubVariables ucd [0x65; 0x301] = [0x65; 0x5F].
Proof. reflexivity. Qed.

(** The cut at 256 units goes through the surrogate pair of
    [cut_pair_input]. *)
Lemma sanitize_cut_pair (ucd : Z -> GeneralCategory) :
  sanitizeGitHubVariables ucd cut_pair_input = replicate 255 0x61 ++ [0xD800] /\
  sanitizeGithubWorkflowName ucd cut_pair_input = replicate 255 0x61 ++ [0xD800].
Proof. split; vm_compute; reflexivity. Qed.

(** C1 (code bug): the replacement works on code points, the cut at 256
    on code units, and nothing keeps the cut off a surrogate pair.  For
    [cut_pair_input], 257 units whose code points are all letters, both
    sanitizers replace nothing and return the first 256 units, which end
    in the lone lead surrogate U+D800: a code point in no class of the
    allowed set, whatever the engine's table says elsewhere.  The result is
    not the tag value that the sanitizer is there to produce. *)
Theorem sanitizer_cuts_surrogate_pair (ucd : Z -> GeneralCategory) :
  let v := sanitizeGitHubVariables ucd cut_pair_input in
  length cut_pair_input = 257%nat
  /\ forallb (spec_tag_class ucd) (codePoints cut_pair_input) = true
  /\ v = replicate 255 0x61 ++ [0xD800]
  /\ sanitizeGithubWorkflowName ucd cut_pair_input = v
  /\ last (codePoints v) = Some 0xD800
  /\ spec_tag_class ucd 0xD800 = false
  /\ ~ spec_tag_value ucd v.
Proof.
  intros v. subst v. rewrite (proj2 (sanitize_cut_pair ucd)).
  rewrite (proj1 (sanitize_cut_pair ucd)).
  repeat split; try (vm_compute; reflexivity).
  intros [_ H]. vm_compute in H. discriminate.
Qed.

(** What sanitizeGitHubVariables computes on any string: every code
    point that is not a letter, a separator, a number or one of
    [_ . : / = + - @] becomes [_] (a mark too: the class of the code has
    no [\p{M}]) and the first 256 code units are kept.  The result has at
    most 256 units.  It is a tag value when it does not end in a lead
    surrogate; when it does, the cut went through a surrogate pair and
    only what precedes the lone surrogate is in the class.
    sanitizeGithubWorkflowName returns the same value on every name that
    has none of [; < > ?]. *)
Lemma sanitizer_result_shape (ucd : Z -> GeneralCategory) (s : jsstring) :
  let v := sanitizeGitHubVariables ucd s in
  (exists r,
      codePoints r = map (subst_cp (variables_class ucd)) (codePoints s) /\
      v = take 256 r)
  /\ (forall c, p_M ucd c = true -> subst_cp (variables_class ucd) c = 0x5F)
  /\ (length v <= 256)%nat
  /\ (if ends_with_lead v
      then exists p u, v = p ++ [u] /\ is_lead u = true /\
             forallb (spec_tag_class ucd) (codePoints p) = true
      else spec_tag_value ucd v)
  /\ (forallb (fun u => negb (range_only u)) s = true ->
      sanitizeGithubWorkflowName ucd s = v).
Proof.
  intros v.
  pose proof (variables_class_underscore ucd) as Hus.
  pose proof (variables_class_lead ucd) as Hlead.
  assert (length v <= 256)%nat as Hlen.
  { subst v. unfold sanitizeGitHubVariables, slice0, MAX_TAG_VALUE_LENGTH.
    rewrite length_take. lia. }
  split; [|split; [|split; [exact Hlen | split]]].
  - eexists. split; [apply (codePoints_R _ Hlead) | reflexivity].
  - intros c Hc. unfold subst_cp. by rewrite (mark_not_kept _ _ Hc).
  - destruct (take_R_shape _ Hus Hlead 256 s)
      as [[He Hcl] | [He (p & u & Hp & Hcl & Hu)]];
      change (take 256 _) with v in *; rewrite He.
    + split; [exact Hlen|].
      apply (forallb_mono _ _ _ (variables_class_spec ucd)).
      by apply clean_codePoints.
    + exists p, u. split; [exact Hp|]. split; [exact Hu|].
      apply (forallb_mono _ _ _ (variables_class_spec ucd)).
      by apply clean_codePoints.
  - intros H. unfold sanitizeGithubWorkflowName.
    by rewrite replace_workflow_variables.
Qed.

(** C9 (code bug): the same cut makes a second pass change the value.
    On [cut_pair_input] the first pass of either sanitizer ends in the
    lone lead surrogate U+D800 at unit 255; the second pass reads it as a
    code point outside the class and replaces it with [_]. *)
Theorem sanitizer_second_pass_differs (ucd : Z -> GeneralCategory) :
  let v := sanitizeGitHubVariables ucd cut_pair_input in
  let n := sanitizeGithubWorkflowName ucd cut_pair_input in
  v = replicate 255 0x61 ++ [0xD800]
  /\ sanitizeGitHubVariables ucd v = replicate 255 0x61 ++ [0x5F]
  /\ sanitizeGitHubVariables ucd v <> v
  /\ n = replicate 255 0x61 ++ [0xD800]
  /\ sanitizeGithubWorkflowName ucd n = replicate 255 0x61 ++ [0x5F]
  /\ sanitizeGithubWorkflowName ucd n <> n.
Proof.
  intros v n. subst v n. destruct (sanitize_cut_pair ucd) as [-> ->].
  repeat split; try (vm_compute; reflexivity);
    intros H; vm_compute in H; discriminate.
Qed.

Lemma sanitize_twice (cls : Z -> bool) (s : jsstring) :
  cls 0x5F = true -> (forall u, is_lead u = true -> cls u = false) ->
  let f := fun x =>
    slice0 MAX_TAG_VALUE_LENGTH
      (replaceAllU (fun c => negb (cls c)) SANITIZATION_CHARACTER x) in
  (f (f s) = f s <-> ends_with_lead (f s) = false)
  /\ ((length s <= 256)%nat -> ends_with_lead (f s) = false).
Proof.
  intros Hus Hlead f.
  assert (length (f s) <= 256)%nat as Hlen.
  { unfold f, slice0, MAX_TAG_VALUE_LENGTH. rewrite length_take. lia. }
  split.
  - destruct (take_R_shape _ Hus Hlead 256 s)
      as [[He Hcl] | [He (p & u & Hp & Hcl & Hu)]];
      change (take 256 _) with (f s) in *.
    + split; [done | intros _].
      unfold f at 1, slice0, MAX_TAG_VALUE_LENGTH.
      rewrite (clean_fixed _ _ Hcl). by apply take_ge.
    + rewrite He. split; [|done]. intros Hfix. exfalso.
      unfold f at 1, slice0, MAX_TAG_VALUE_LENGTH in Hfix.
      rewrite Hp in Hfix, Hlen.
      rewrite (R_snoc_lead _ Hlead _ _ Hcl Hu) in Hfix.
      rewrite take_ge in Hfix by (rewrite length_app in *; simpl in *; lia).
      apply app_inv_head in Hfix. injection Hfix as <-. discriminate Hu.
  - intros Hs. unfold f, slice0, MAX_TAG_VALUE_LENGTH.
    rewrite take_ge
      by (pose proof (replaceAllU_length (fun c => negb (cls c)) s); lia).
    apply (clean_not_ends_with_lead cls), R_clean; assumption.
Qed.

(** When a second pass of either sanitizer changes nothing: exactly when
    the sanitized value does not end in a lead surrogate, that is, when
    the cut at 256 units did not go through a surrogate pair; no string
    of at most 256 units is cut. *)
Lemma sanitizer_idempotent_unless_cut (ucd : Z -> GeneralCategory)
    (s : jsstring) :
  (sanitizeGitHubVariables ucd (sanitizeGitHubVariables ucd s)
     = sanitizeGitHubVariables ucd s
   <-> ends_with_lead (sanitizeGitHubVariables ucd s) = false)
  /\ (sanitizeGithubWorkflowName ucd (sanitizeGithubWorkflowName ucd s)
        = sanitizeGithubWorkflowName ucd s
      <-> ends_with_lead (sanitizeGithubWorkflowName ucd s) = false)
  /\ ((length s <= 256)%nat ->
      ends_with_lead (sanitizeGitHubVariables ucd s) = false /\
      ends_with_lead (sanitizeGithubWorkflowName ucd s) = false).
Proof.
  destruct (sanitize_twice (variables_class ucd) s
              (variables_class_underscore ucd) (variables_class_lead ucd))
    as [Hv1 Hv2].
  destruct (sanitize_twice (workflow_class ucd) s
              (workflow_class_underscore ucd) (workflow_class_lead ucd))
    as [Hw1 Hw2].
  split; [exact Hv1 | split; [exact Hw1 | ]].
  intros Hs. split; [exact (Hv2 Hs) | exact (Hw2 Hs)].
Qed.

(* --------------------------------------------------------------------- *)
(*  The session tags                                                       *)
(* --------------------------------------------------------------------- *)

Lemma sanitizeGithubActor_map (actor : jsstring) :
  sanitizeGithubActor actor = map bracket_subst actor.
Proof.
  unfold sanitizeGithubActor, bracket_subst.
  induction actor as [|u t IH]; simpl; [done|].
  rewrite IH. by destruct ((u =? 0x5B) || (u =? 0x5D)).
Qed.

Lemma bracket_subst_no_bracket (u : Z) :
  bracket_subst u <> 0x5B /\ bracket_subst u <> 0x5D.
Proof.
  unfold bracket_subst.
  destruct (u =? 0x5B) eqn:E1, (u =? 0x5D) eqn:E2; simpl; lia.
Qed.

Lemma actor_tag_value (ucd : Z -> GeneralCategory)
    (repository workflow action actor sha : jsstring) (ref : option jsstring) :
  tag_value (lit "Actor")
    (tagArray ucd repository workflow action actor sha ref)
  = Some (sanitizeGithubActor actor).
Proof. reflexivity. Qed.

(** C5, as stated, fails: for the actor name [long_actor] (256 letters and
    [!]) the Actor tag is the name itself, 257 units long and with its
    [!], which is no tag value in the sense of the specification. *)
Lemma actor_tag_counterexample :
  tag_value (lit "Actor")
    (tagArray ucd_unassigned (lit "octo/repo") (lit "CI") (lit "configure")
       long_actor (lit "0123abc") None)
  = Some long_actor
  /\ length long_actor = 257%nat
  /\ ~ (exists ucd, spec_tag_value ucd long_actor).
Proof.
  split; [vm_compute; reflexivity|]. split; [reflexivity|].
  intros [ucd [Hlen _]]. vm_compute in Hlen. lia.
Qed.

(** C5 (amended): the Actor tag built by assumeRole holds the actor name
    with every [[] and []] replaced by [_] and nothing else changed: it
    is as long as the name (there is no cut at 256 units), it has no
    bracket, and every other unit of the name is kept. *)
Theorem actor_tag_brackets_only (ucd : Z -> GeneralCategory)
    (repository workflow action actor sha : jsstring) (ref : option jsstring) :
  exists v,
    tag_value (lit "Actor")
      (tagArray ucd repository workflow action actor sha ref) = Some v
    /\ v = map bracket_subst actor
    /\ length v = length actor
    /\ Forall (fun u => u <> 0x5B /\ u <> 0x5D) v.
Proof.
  exists (sanitizeGithubActor actor).
  split; [apply actor_tag_value|].
  rewrite sanitizeGithubActor_map.
  split; [reflexivity|]. split; [apply length_map|].
  apply Forall_forall. intros u Hu.
  apply list_elem_of_fmap in Hu as (x & -> & _).
  apply bracket_subst_no_bracket.
Qed.

(* --------------------------------------------------------------------- *)
(*  assumeRole                                                             *)
(* --------------------------------------------------------------------- *)

Section AssumeRoleFacts.
Variable ucd : Z -> GeneralCategory.
Variable path : PathModule.

Lemma webIdentityInput_no_tags (common : gmap string js_value)
    (token : jsstring) :
  webIdentityInput common token !! "Tags"%string = None.
Proof.
  unfold webIdentityInput.
  rewrite lookup_insert_ne by done. apply lookup_delete_eq.
Qed.

Lemma webIdentityInput_token (common : gmap string js_value)
    (token : jsstring) :
  webIdentityInput common token !! "WebIdentityToken"%string
  = Some (VString token).
Proof. unfold webIdentityInput. apply lookup_insert_eq. Qed.

(** Before the switch the object does hold the tags that were built. *)
Lemma common_holds_tags (RoleArn : jsstring) (params : assumeRoleParams)
    (tags : list Tag) :
  commonAssumeRoleParams RoleArn params (Some tags) !! "Tags"%string
  = Some (VTags tags).
Proof.
  unfold commonAssumeRoleParams.
  apply map_lookup_filter_Some. split; [|done].
  by repeat (rewrite lookup_insert_ne by done); rewrite lookup_insert_eq.
Qed.

Lemma assumeRole_reaches (params : assumeRoleParams)
    (env : gmap string jsstring) (fs : FileSystem)
    (repository workflow action actor sha workspace RoleArn : jsstring) :
  reaches_flow_selection params env
    repository workflow action actor sha workspace RoleArn ->
  let Tags :=
    sessionTags params
      (tagArray ucd repository workflow action actor sha
         (env !! "GITHUB_REF"%string)) in
  let r :=
    selectFlow path params workspace
      (commonAssumeRoleParams RoleArn params Tags) fs in
  assumeRole ucd path params env fs = (tagsDebug Tags :: r.1, r.2).
Proof.
  intros [Henv Hrole] Tags r. unfold assumeRole. rewrite Henv, Hrole.
  fold Tags. fold r. by destruct r.
Qed.

Lemma tokenFileFlow_events (params : assumeRoleParams) (workspace : jsstring)
    (common : gmap string js_value) (fs : FileSystem) (file : jsstring) :
  exists p rest,
    (tokenFileFlow path params workspace common fs file).1
    = Debug MSG_FILE_FLOW :: ExistsSync p :: rest.
Proof.
  unfold tokenFileFlow. repeat case_match; simpl; eauto.
Qed.

Lemma selectFlow_sent (params : assumeRoleParams) (workspace : jsstring)
    (common : gmap string js_value) (fs : FileSystem)
    (ev : list event) (r : jsstring) (input : gmap string js_value) :
  selectFlow path params workspace common fs = (ev, Sent r input) ->
  exists token, input = webIdentityInput common token.
Proof.
  unfold selectFlow, directTokenFlow, tokenFileFlow.
  repeat case_match; intros [= <- <- <-]; eauto.
Qed.

(** Whatever is dispatched was built by [webIdentityInput]. *)
Lemma assumeRole_sent (params : assumeRoleParams)
    (env : gmap string jsstring) (fs : FileSystem)
    (ev : list event) (r : jsstring) (input : gmap string js_value) :
  assumeRole ucd path params env fs = (ev, Sent r input) ->
  exists common token, input = webIdentityInput common token.
Proof.
  unfold assumeRole.
  destruct (required_env env) as [[[[[[rp wf] ac] at'] sha] ws]|]; [|done].
  destruct (resolveRoleArn _ _) as [e|arn]; [done|].
  destruct (selectFlow _ _ _ _ _) as [ev' res] eqn:E.
  intros [= <- ->].
  apply selectFlow_sent in E as [token ->]. eauto.
Qed.

Lemma selectFlow_direct (params : assumeRoleParams) (workspace : jsstring)
    (common : gmap string js_value) (fs : FileSystem) (token : jsstring) :
  webIdentityToken params = Some token -> token <> [] ->
  selectFlow path params workspace common fs
  = directTokenFlow params common token.
Proof.
  intros H Hne. unfold selectFlow. rewrite H. by destruct token.
Qed.

Lemma selectFlow_file (params : assumeRoleParams) (workspace : jsstring)
    (common : gmap string js_value) (fs : FileSystem) (file : jsstring) :
  truthy (webIdentityToken params) = false ->
  webIdentityTokenFile params = Some file -> file <> [] ->
  selectFlow path params workspace common fs
  = tokenFileFlow path params workspace common fs file.
Proof.
  intros Ht Hf Hne. unfold selectFlow. rewrite Hf.
  destruct (webIdentityToken params) as [[|c t]|]; try discriminate;
    by destruct file.
Qed.

Lemma selectFlow_neither (params : assumeRoleParams) (workspace : jsstring)
    (common : gmap string js_value) (fs : FileSystem) :
  truthy (webIdentityToken params) = false ->
  truthy (webIdentityTokenFile params) = false ->
  selectFlow path params workspace common fs
  = ([], Threw (Error MSG_NO_SOURCE)).
Proof.
  intros Ht Hf. unfold selectFlow.
  destruct (webIdentityToken params) as [[|c t]|]; try discriminate;
    destruct (webIdentityTokenFile params) as [[|d f]|]; try discriminate;
    reflexivity.
Qed.

End AssumeRoleFacts.

(** C3: with a web identity token given and session tagging not skipped,
    whatever assumeRole dispatches has no [Tags] member; and when the call
    gets to the switch with a non-empty token it does dispatch, by the
    direct-token flow, an input without [Tags], although the object built
    before the switch held the tags. *)
Theorem direct_token_no_tags (ucd : Z -> GeneralCategory) (path : PathModule)
    (params : assumeRoleParams) (env : gmap string jsstring)
    (fs : FileSystem) (token : jsstring) :
  webIdentityToken params = Some token ->
  default false (roleSkipSessionTagging params) = false ->
  (forall ev r input,
      assumeRole ucd path params env fs = (ev, Sent r input) ->
      input !! "Tags"%string = None)
  /\ (forall repository workflow action actor sha workspace RoleArn,
        token <> [] ->
        reaches_flow_selection params env
          repository workflow action actor sha workspace RoleArn ->
        let tags :=
          tagArray ucd repository workflow action actor sha
            (env !! "GITHUB_REF"%string) in
        let common := commonAssumeRoleParams RoleArn params (Some tags) in
        common !! "Tags"%string = Some (VTags tags)
        /\ assumeRole ucd path params env fs
           = ([tagsDebug (Some tags)],
              Sent (region params) (webIdentityInput common token))
        /\ webIdentityInput common token !! "Tags"%string = None).
Proof.
  intros Htok Hskip. split.
  - intros ev r input H.
    apply assumeRole_sent in H as (common & t & ->).
    apply webIdentityInput_no_tags.
  - intros rp wf ac at' sha ws arn Hne Hreach tags common.
    split; [apply common_holds_tags|].
    split; [|apply webIdentityInput_no_tags].
    rewrite (assumeRole_reaches ucd path _ _ fs _ _ _ _ _ _ _ Hreach).
    unfold sessionTags. rewrite Hskip.
    by rewrite (selectFlow_direct path _ _ _ _ _ Htok Hne).
Qed.

Lemma direct_token_no_tags_witness :
  webIdentityToken sample_params = Some (lit "eyJhbGciOi")
  /\ default false (roleSkipSessionTagging sample_params) = false
  /\ exists ev input,
       assumeRole ucd_unassigned posix_path sample_params sample_env empty_fs
       = (ev, Sent (lit "us-east-1") input)
       /\ input !! "Tags"%string = None.
Proof.
  split; [reflexivity|]. split; [reflexivity|].
  destruct (direct_token_no_tags ucd_unassigned posix_path sample_params
              sample_env empty_fs (lit "eyJhbGciOi") eq_refl eq_refl)
    as [_ H].
  destruct (H (lit "octo/repo") (lit "CI (main)") (lit "configure")
              (lit "dependabot[bot]") (lit "0123abc")
              (lit "/home/runner/work")
              (lit "arn:aws:iam::111122223333:role/deploy"))
    as (_ & Hrun & Hno).
  - discriminate.
  - split; reflexivity.
  - eexists _, _. split; [exact Hrun | exact Hno].
Defined.

(** C4: with both a non-empty web identity token and a token file given,
    assumeRole does no file existence check and no file read; whatever it
    dispatches carries the given token unchanged; and when the call gets
    to the switch it does dispatch: its one event is the debug line on the
    tags, and the request sent to the client of [region] is the common
    members without [Tags], with [WebIdentityToken] the given token and
    [RoleArn] the resolved role. *)
Theorem direct_token_priority (ucd : Z -> GeneralCategory)
    (path : PathModule) (params : assumeRoleParams)
    (env : gmap string jsstring) (fs : FileSystem) (token file : jsstring) :
  webIdentityToken params = Some token -> token <> [] ->
  webIdentityTokenFile params = Some file ->
  forallb (fun e => negb (is_file_access e))
    (assumeRole ucd path params env fs).1 = true
  /\ (forall r input,
        (assumeRole ucd path params env fs).2 = Sent r input ->
        input !! "WebIdentityToken"%string = Some (VString token))
  /\ (forall repository workflow action actor sha workspace RoleArn,
        reaches_flow_selection params env
          repository workflow action actor sha workspace RoleArn ->
        let Tags :=
          sessionTags params
            (tagArray ucd repository workflow action actor sha
               (env !! "GITHUB_REF"%string)) in
        let input :=
          <["WebIdentityToken"%string := VString token]>
            (delete "Tags"%string
               (commonAssumeRoleParams RoleArn params Tags)) in
        assumeRole ucd path params env fs
        = ([tagsDebug Tags], Sent (region params) input)
        /\ input !! "WebIdentityToken"%string = Some (VString token)
        /\ input !! "RoleArn"%string = Some (VString RoleArn)
        /\ input !! "Tags"%string = None).
Proof.
  intros Htok Hne Hfile.
  split; [|split].
  - unfold assumeRole.
    destruct (required_env env) as [[[[[[rp wf] ac] at'] sha] ws]|] eqn:Henv;
      [|reflexivity].
    destruct (resolveRoleArn _ _) as [e|arn] eqn:Hrole; [reflexivity|].
    rewrite (selectFlow_direct path _ _ _ _ _ Htok Hne).
    unfold directTokenFlow. simpl. by destruct (sessionTags _ _).
  - unfold assumeRole.
    destruct (required_env env) as [[[[[[rp wf] ac] at'] sha] ws]|] eqn:Henv;
      [|discriminate].
    destruct (resolveRoleArn _ _) as [e|arn] eqn:Hrole; [discriminate|].
    rewrite (selectFlow_direct path _ _ _ _ _ Htok Hne).
    generalize (commonAssumeRoleParams arn params
                  (sessionTags params
                     (tagArray ucd rp wf ac at' sha
                        (env !! "GITHUB_REF"%string)))).
    intros common r input. unfold directTokenFlow. cbn [snd].
    intros H. injection H as _ <-. apply webIdentityInput_token.
  - intros rp wf ac at' sha ws arn Hr Tags input. split; [|split; [|split]].
    + rewrite (assumeRole_reaches ucd path _ _ fs _ _ _ _ _ _ _ Hr).
      by rewrite (selectFlow_direct path _ _ _ _ _ Htok Hne).
    + apply lookup_insert_eq.
    + unfold input. rewrite lookup_insert_ne, lookup_delete_ne by done.
      unfold commonAssumeRoleParams.
      apply map_lookup_filter_Some. split; [|done]. apply lookup_insert_eq.
    + unfold input. rewrite lookup_insert_ne by done. apply lookup_delete_eq.
Qed.

(** A call with both sources and a complete environment: the request goes
    out with the token that was given, and the file system is not
    touched. *)
Lemma direct_token_priority_witness :
  webIdentityToken sample_params = Some (lit "eyJhbGciOi")
  /\ lit "eyJhbGciOi" <> []
  /\ webIdentityTokenFile sample_params = Some (lit "token.jwt")
  /\ exists ev input,
       assumeRole ucd_unassigned posix_path sample_params sample_env empty_fs
       = (ev, Sent (lit "us-east-1") input)
       /\ ev = [Debug (lit "6 role session tags are being used.")]
       /\ input !! "WebIdentityToken"%string
          = Some (VString (lit "eyJhbGciOi"))
       /\ input !! "RoleArn"%string
          = Some (VString (lit "arn:aws:iam::111122223333:role/deploy"))
       /\ input !! "Tags"%string = None.
Proof.
  split; [reflexivity|]. split; [discriminate|]. split; [reflexivity|].
  destruct (direct_token_priority ucd_unassigned posix_path sample_params
              sample_env empty_fs (lit "eyJhbGciOi") (lit "token.jwt")
              eq_refl ltac:(discriminate) eq_refl)
    as (_ & _ & H).
  destruct (H (lit "octo/repo") (lit "CI (main)") (lit "configure")
              (lit "dependabot[bot]") (lit "0123abc")
              (lit "/home/runner/work")
              (lit "arn:aws:iam::111122223333:role/deploy"))
    as (Hrun & Htok & Harn & Htags).
  - split; reflexivity.
  - eexists _, _. split; [exact Hrun|].
    split; [reflexivity|]. split; [exact Htok|]. split; [exact Harn|].
    exact Htags.
Defined.

(** C6: for a role reference that does not start with [arn:aws] and no
    source account id, assumeRole throws without any event and without a
    dispatch; once the environment check of line 26 has passed, what it
    throws is the assertion error on the missing account id. *)
Theorem short_role_needs_account (ucd : Z -> GeneralCategory)
    (path : PathModule) (params : assumeRoleParams)
    (env : gmap string jsstring) (fs : FileSystem) :
  startsWith (roleToAssume params) (lit "arn:aws") = false ->
  sourceAccountId params = None ->
  (exists e, assumeRole ucd path params env fs = ([], Threw e))
  /\ (is_Some (required_env env) ->
      assumeRole ucd path params env fs
      = ([], Threw (AssertionError MSG_ACCOUNT))).
Proof.
  intros Hprefix Hacct.
  assert (resolveRoleArn (roleToAssume params) (sourceAccountId params)
          = inl (AssertionError MSG_ACCOUNT)) as Hrole.
  { unfold resolveRoleArn. by rewrite Hprefix, Hacct. }
  unfold assumeRole. rewrite Hrole.
  destruct (required_env env) as [[[[[[rp wf] ac] at'] sha] ws]|].
  - split; [eauto | done].
  - split; [eauto | by intros [? ?]].
Qed.

Lemma short_role_needs_account_witness :
  startsWith (roleToAssume short_role_params) (lit "arn:aws") = false
  /\ sourceAccountId short_role_params = None
  /\ assumeRole ucd_unassigned posix_path short_role_params sample_env empty_fs
     = ([], Threw (AssertionError MSG_ACCOUNT)).
Proof.
  split; [reflexivity|]. split; [reflexivity|].
  refine (proj2 (short_role_needs_account ucd_unassigned posix_path
                   short_role_params sample_env empty_fs eq_refl eq_refl) _).
  eexists. vm_compute. reflexivity.
Defined.

(** C7: when the call gets to the switch with no usable token and a
    non-empty token file, and the path - the file itself when it is
    absolute, else joined to the workspace root - does not exist, then
    assumeRole checks that one path, reads nothing, and throws the error
    whose message ends with that path. *)
Theorem token_file_not_found (ucd : Z -> GeneralCategory) (path : PathModule)
    (params : assumeRoleParams) (env : gmap string jsstring)
    (fs : FileSystem) (file : jsstring)
    (repository workflow action actor sha workspace RoleArn : jsstring) :
  reaches_flow_selection params env
    repository workflow action actor sha workspace RoleArn ->
  truthy (webIdentityToken params) = false ->
  webIdentityTokenFile params = Some file -> file <> [] ->
  let resolved :=
    if isAbsolute path file then file else join path workspace file in
  existsSync fs resolved = false ->
  exists d,
    assumeRole ucd path params env fs
    = ([Debug d; Debug MSG_FILE_FLOW; ExistsSync resolved],
       Threw (Error (MSG_NO_FILE ++ resolved))).
Proof.
  intros Hreach Htok Hfile Hne resolved Hmissing.
  rewrite (assumeRole_reaches ucd path _ _ fs _ _ _ _ _ _ _ Hreach).
  rewrite (selectFlow_file path _ _ _ _ _ Htok Hfile Hne).
  unfold tokenFileFlow. fold resolved. rewrite Hmissing. simpl.
  unfold tagsDebug. case_match; eauto.
Qed.

(** A relative token file, no token, no file on disk. *)
Lemma token_file_not_found_witness :
  exists d,
    assumeRole ucd_unassigned posix_path
      (with_token sample_params None) sample_env empty_fs
    = ([Debug d; Debug MSG_FILE_FLOW;
        ExistsSync (lit "/home/runner/work/token.jwt")],
       Threw (Error (lit "Web identity token file does not exist: /home/runner/work/token.jwt"))).
Proof.
  refine (token_file_not_found ucd_unassigned posix_path
            (with_token sample_params None) sample_env empty_fs
            (lit "token.jwt")
            (lit "octo/repo") (lit "CI (main)") (lit "configure")
            (lit "dependabot[bot]") (lit "0123abc")
            (lit "/home/runner/work")
            (lit "arn:aws:iam::111122223333:role/deploy")
            _ eq_refl eq_refl _ eq_refl).
  - split; reflexivity.
  - discriminate.
Defined.

(** C10: an empty-string token (token file) is treated as one that was
    not given: the call behaves as with the member absent.  At the
    switch, an empty token with a non-empty token file takes the
    token-file flow, and an empty token with no usable token file throws
    'No web identity token or web identity token file provided.' *)
Theorem empty_token_not_provided (ucd : Z -> GeneralCategory)
    (path : PathModule) (params : assumeRoleParams)
    (env : gmap string jsstring) (fs : FileSystem) :
  webIdentityToken params = Some [] ->
  assumeRole ucd path params env fs
    = assumeRole ucd path (with_token params None) env fs
  /\ (webIdentityTokenFile params = Some [] ->
      assumeRole ucd path params env fs
      = assumeRole ucd path (with_token_file params None) env fs)
  /\ (forall repository workflow action actor sha workspace RoleArn,
        reaches_flow_selection params env
          repository workflow action actor sha workspace RoleArn ->
        (forall file,
            webIdentityTokenFile params = Some file -> file <> [] ->
            exists Tags,
              let flow :=
                tokenFileFlow path params workspace
                  (commonAssumeRoleParams RoleArn params Tags) fs file in
              assumeRole ucd path params env fs
              = (tagsDebug Tags :: flow.1, flow.2))
        /\ (truthy (webIdentityTokenFile params) = false ->
            exists Tags,
              assumeRole ucd path params env fs
              = ([tagsDebug Tags], Threw (Error MSG_NO_SOURCE)))).
Proof.
  intros Htok.
  assert (truthy (webIdentityToken params) = false) as Hfalsy
    by (by rewrite Htok).
  split; [|split].
  - unfold assumeRole, selectFlow. rewrite Htok. reflexivity.
  - intros Hfile. unfold assumeRole, selectFlow, with_token_file.
    cbn [webIdentityToken webIdentityTokenFile]. rewrite Htok, Hfile.
    reflexivity.
  - intros rp wf ac at' sha ws arn Hreach. split.
    + intros file Hfile Hne. eexists. cbv zeta.
      rewrite (assumeRole_reaches ucd path _ _ fs _ _ _ _ _ _ _ Hreach).
      by rewrite (selectFlow_file path _ _ _ _ _ Hfalsy Hfile Hne).
    + intros Hfile. eexists.
      rewrite (assumeRole_reaches ucd path _ _ fs _ _ _ _ _ _ _ Hreach).
      by rewrite (selectFlow_neither path _ _ _ _ Hfalsy Hfile).
Qed.

(** An empty token and no token file. *)
Lemma empty_token_not_provided_witness :
  webIdentityToken
    (with_token (with_token_file sample_params None) (Some [])) = Some []
  /\ exists Tags,
       assumeRole ucd_unassigned posix_path
         (with_token (with_token_file sample_params None) (Some []))
         sample_env empty_fs
       = ([tagsDebug Tags], Threw (Error MSG_NO_SOURCE)).
Proof.
  split; [reflexivity|].
  refine (proj2 (proj2 (proj2
    (empty_token_not_provided ucd_unassigned posix_path
       (with_token (with_token_file sample_params None) (Some []))
       sample_env empty_fs eq_refl))
    (lit "octo/repo") (lit "CI (main)") (lit "configure")
    (lit "dependabot[bot]") (lit "0123abc") (lit "/home/runner/work")
    (lit "arn:aws:iam::111122223333:role/deploy") _) eq_refl).
  split; reflexivity.
Defined.

(* --------------------------------------------------------------------- *)
(*  retryAndBackoff                                                        *)
(* --------------------------------------------------------------------- *)

Section Events.
Context {T E : Type}.
Implicit Types (evs : list (retry_event T E)) (r : settled T E).

Lemma results_invoked r evs : results (Invoked r :: evs) = r :: results evs.
Proof. reflexivity. Qed.

Lemma results_slept ms evs : results (Slept ms :: evs) = results evs.
Proof. reflexivity. Qed.

Lemma delays_invoked r evs : delays (Invoked r :: evs) = delays evs.
Proof. reflexivity. Qed.

Lemma delays_slept ms evs : delays (Slept ms :: evs) = ms :: delays evs.
Proof. reflexivity. Qed.

Lemma invocations_failed_try (err : E) ms evs :
  invocations (Invoked (Rejected err) :: Slept ms :: evs)
  = S (invocations evs).
Proof. reflexivity. Qed.

Lemma rejections_failed_try (err : E) ms evs :
  rejections (Invoked (Rejected err) :: Slept ms :: evs)
  = S (rejections evs).
Proof.
  unfold rejections. rewrite results_invoked, results_slept.
  by rewrite filter_cons_True.
Qed.

End Events.

Section RetryFacts.
Context {World T E : Type}.
Variable random : World -> float * World.
Variable sleep : float -> World -> World.
Variable fn : World -> settled T E * World.

Local Abbreviation retry := (retryAndBackoff random sleep).

(** Not retryable: one call, its result handed on, no sleep. *)
Lemma retry_not_retryable (fuel retries maxRetries : nat) (base : float)
    (w : World) :
  retry (S fuel) fn false retries maxRetries base w
  = Some ((fn w).1, [Invoked (fn w).1], (fn w).2).
Proof. simpl. by destruct (fn w) as [[v|err] w1]. Qed.

(** More fuel does not change a run that ended. *)
Lemma retry_fuel_mono (fuel fuel' : nat) (isRetryable : bool)
    (retries maxRetries : nat) (base : float) (w : World) out :
  (fuel <= fuel')%nat ->
  retry fuel fn isRetryable retries maxRetries base w = Some out ->
  retry fuel' fn isRetryable retries maxRetries base w = Some out.
Proof.
  revert fuel' retries w out.
  induction fuel as [|fuel IH]; intros fuel' retries w out Hle H; [done|].
  destruct fuel' as [|fuel']; [lia|]. cbn [retryAndBackoff] in *.
  destruct (fn w) as [[v|err] w1]; [done|].
  destruct (negb isRetryable); [done|].
  destruct (random w1) as [r w2].
  destruct (S retries =? maxRetries)%nat; [done|].
  destruct (retry fuel fn isRetryable (S retries) maxRetries base _)
    as [[[res evs] w']|] eqn:Hrec; [|done].
  by rewrite (IH fuel' _ _ _ ltac:(lia) Hrec).
Qed.

(** The loop ends within [maxRetries - retries] calls. *)
Lemma retry_terminates (fuel : nat) (isRetryable : bool)
    (retries maxRetries : nat) (base : float) (w : World) :
  (retries < maxRetries)%nat -> (maxRetries - retries <= fuel)%nat ->
  is_Some (retry fuel fn isRetryable retries maxRetries base w).
Proof.
  revert retries w.
  induction fuel as [|fuel IH]; intros retries w Hlt Hfuel; [lia|].
  cbn [retryAndBackoff]. destruct (fn w) as [[v|err] w1]; [done|].
  destruct (negb isRetryable); [done|].
  destruct (random w1) as [r w2].
  destruct (S retries =? maxRetries)%nat eqn:Heq; [done|].
  apply Nat.eqb_neq in Heq.
  destruct (IH (S retries)
              (sleep (r * (Math_pow2 retries * base))%float w2))
    as [[[res evs] w'] ->]; [lia | lia | done].
Qed.

(** An operation that fails every time is called [maxRetries - retries]
    times. *)
Lemma retry_always_failing (fuel : nat) (retries maxRetries : nat)
    (base : float) (w : World) res evs w' :
  (forall w, is_rejected (fn w).1 = true) ->
  (retries < maxRetries)%nat ->
  retry fuel fn true retries maxRetries base w = Some (res, evs, w') ->
  invocations evs = (maxRetries - retries)%nat
  /\ rejections evs = (maxRetries - retries)%nat
  /\ is_rejected res = true.
Proof.
  intros Hfail. revert retries w res evs w'.
  induction fuel as [|fuel IH]; intros retries w res evs w' Hlt H; [done|].
  cbn [retryAndBackoff] in H. pose proof (Hfail w) as Hw.
  destruct (fn w) as [[v|err] w1]; [done|]. cbn [negb] in H.
  destruct (random w1) as [r w2].
  destruct (S retries =? maxRetries)%nat eqn:Heq.
  { apply Nat.eqb_eq in Heq. injection H as <- <- <-.
    rewrite invocations_failed_try, rejections_failed_try.
    change (invocations []) with 0%nat. change (rejections []) with 0%nat.
    repeat split; try lia; done. }
  apply Nat.eqb_neq in Heq.
  destruct (retry fuel fn true (S retries) maxRetries base _)
    as [[[res0 evs0] w0]|] eqn:Hrec; [|done].
  injection H as <- <- <-.
  destruct (IH (S retries) _ _ _ _ ltac:(lia) Hrec) as (Hi & Hj & Hres).
  rewrite invocations_failed_try, rejections_failed_try, Hi, Hj.
  repeat split; [lia | lia | exact Hres].
Qed.

Local Abbreviation world_of := (attempt_world random sleep fn).
Local Abbreviation step_of := (after_failed_call random sleep fn).
Local Abbreviation events_of := (failed_attempts random sleep fn).

(** A retryable run of an operation that fails every time, unrolled:
    with [n + 1] attempts left it makes the [n + 1] calls of
    [failed_attempts], each in the world left by the sleep before it,
    hands on what the last of them settled to, and ends in the world left
    by the last sleep. *)
Lemma retry_failing_unrolled (fuel n retries maxRetries : nat) (base : float)
    (w : World) :
  (forall w, is_rejected (fn w).1 = true) ->
  maxRetries = (retries + S n)%nat -> (S n <= fuel)%nat ->
  retry fuel fn true retries maxRetries base w
  = Some ((fn (world_of n retries base w)).1,
          events_of (S n) retries base w,
          world_of (S n) retries base w).
Proof.
  intros Hfail. revert n retries w.
  induction fuel as [|fuel IH]; intros n retries w Hmax Hfuel; [lia|].
  pose proof (Hfail w) as Hw.
  destruct n as [|n]; cbn [retryAndBackoff failed_attempts attempt_world];
    unfold after_failed_call;
    destruct (fn w) as [[v|err] w1]; try done; cbn [negb fst snd];
    destruct (random w1) as [r w2]; cbn [fst snd].
  - replace (S retries =? maxRetries)%nat with true; [reflexivity|].
    symmetry. apply Nat.eqb_eq. lia.
  - replace (S retries =? maxRetries)%nat with false.
    + rewrite (IH n (S retries)) by lia. reflexivity.
    + symmetry. apply Nat.eqb_neq. lia.
Qed.

(** The calls and the delays of [failed_attempts], one by one. *)
Lemma failed_attempts_results (n k retries : nat) (base : float) (w : World) :
  (k < n)%nat ->
  results (events_of n retries base w) !! k
  = Some (fn (world_of k retries base w)).1.
Proof.
  revert k retries w.
  induction n as [|n IH]; intros k retries w Hk; [lia|].
  cbn [failed_attempts]. rewrite results_invoked, results_slept.
  destruct k as [|k]; [reflexivity|].
  cbn [attempt_world lookup list_lookup]. apply IH. lia.
Qed.

Lemma failed_attempts_delays (n k retries : nat) (base : float) (w : World) :
  (k < n)%nat ->
  delays (events_of n retries base w) !! k
  = Some (step_of (retries + k) base (world_of k retries base w)).1.
Proof.
  revert k retries w.
  induction n as [|n IH]; intros k retries w Hk; [lia|].
  cbn [failed_attempts]. rewrite delays_invoked, delays_slept.
  destruct k as [|k]; [by rewrite Nat.add_0_r|].
  cbn [attempt_world lookup list_lookup].
  rewrite IH by lia. by rewrite Nat.add_succ_r.
Qed.

Lemma failed_attempts_invocations (n retries : nat) (base : float)
    (w : World) :
  invocations (events_of n retries base w) = n
  /\ length (delays (events_of n retries base w)) = n.
Proof.
  revert retries w. induction n as [|n IH]; intros retries w; [done|].
  cbn [failed_attempts]. unfold invocations.
  rewrite results_invoked, results_slept, delays_invoked, delays_slept.
  destruct (IH (S retries) (step_of retries base w).2) as [Hi Hd].
  unfold invocations in Hi. cbn [length]. by rewrite Hi, Hd.
Qed.

End RetryFacts.

(** What a run hands on is what the last call of [fn] settled to. *)
Lemma retry_last_result {World T E : Type} (random : World -> float * World)
    (sleep : float -> World -> World) (fn : World -> settled T E * World)
    (fuel : nat) (isRetryable : bool) (retries maxRetries : nat)
    (base : float) (w : World) res evs w' :
  retryAndBackoff random sleep fuel fn isRetryable retries maxRetries base w
    = Some (res, evs, w') ->
  last (results evs) = Some res.
Proof.
  revert retries w res evs w'.
  induction fuel as [|fuel IH]; intros retries w res evs w' H; [done|].
  cbn [retryAndBackoff] in H. destruct (fn w) as [[v|err] w1].
  { by injection H as <- <- <-. }
  destruct (negb isRetryable). { by injection H as <- <- <-. }
  destruct (random w1) as [r w2].
  destruct (S retries =? maxRetries)%nat. { by injection H as <- <- <-. }
  destruct (retryAndBackoff random sleep fuel fn isRetryable (S retries)
              maxRetries base _) as [[[res0 evs0] w0]|] eqn:Hrec; [|done].
  injection H as <- <- <-. apply IH in Hrec.
  rewrite results_invoked, results_slept.
  destruct (results evs0); [done | exact Hrec].
Qed.

(** C2: for an operation that fails on every call and [maxRetries = N]
    with [1 <= N], a retryable run from [retries = 0] ends (with any fuel
    of at least [N]) after exactly [N] calls of the operation: call
    number [k] is made in the world that the first [k] failed attempts
    (call, random draw, sleep) leave behind, each call is followed by its
    sleep, and the run hands on, unchanged, what the last of the [N]
    calls was rejected with, in the world left by the last sleep.  A run
    that is not retryable calls the operation once and hands on its error
    at once, with no sleep. *)
Theorem retry_exhausts_attempts {World T E : Type}
    (random : World -> float * World) (sleep : float -> World -> World)
    (fn : World -> settled T E * World) (N : nat) :
  (forall w, is_rejected (fn w).1 = true) ->
  (1 <= N)%nat ->
  (forall fuel base w,
      (N <= fuel)%nat ->
      exists err evs w',
        retryAndBackoff random sleep fuel fn true 0 N base w
          = Some (Rejected err, evs, w')
        /\ invocations evs = N
        /\ last (results evs) = Some (Rejected err)
        /\ (forall k, (k < N)%nat ->
              results evs !! k
              = Some (fn (attempt_world random sleep fn k 0 base w)).1
              /\ delays evs !! k
                 = Some (after_failed_call random sleep fn k base
                           (attempt_world random sleep fn k 0 base w)).1)
        /\ length (delays evs) = N
        /\ Rejected err
           = (fn (attempt_world random sleep fn (N - 1) 0 base w)).1
        /\ w' = attempt_world random sleep fn N 0 base w)
  /\ (forall fuel retries base w,
        exists err w1,
          fn w = (Rejected err, w1)
          /\ retryAndBackoff random sleep (S fuel) fn false retries N base w
             = Some (Rejected err, [Invoked (Rejected err)], w1)).
Proof.
  intros Hfail HN. split.
  - intros fuel base w Hfuel. destruct N as [|n]; [lia|].
    pose proof (retry_failing_unrolled random sleep fn fuel n 0 (S n) base w
                  Hfail eq_refl Hfuel) as Hrun.
    replace (S n - 1)%nat with n by lia.
    pose proof (Hfail (attempt_world random sleep fn n 0 base w)) as Hlast.
    destruct (fn (attempt_world random sleep fn n 0 base w)) as [[v|err] wl]
      eqn:Hcall; [done|].
    exists err, (failed_attempts random sleep fn (S n) 0 base w),
      (attempt_world random sleep fn (S n) 0 base w).
    destruct (failed_attempts_invocations random sleep fn (S n) 0 base w)
      as [Hinv Hlen].
    split; [exact Hrun|]. split; [exact Hinv|].
    split; [exact (retry_last_result _ _ _ _ _ _ _ _ _ _ _ _ Hrun)|].
    split; [|done]. intros k Hk. split.
    + by apply failed_attempts_results.
    + by rewrite failed_attempts_delays.
  - intros fuel retries base w. rewrite retry_not_retryable.
    pose proof (Hfail w) as Hw. destruct (fn w) as [[v|err] w1]; [done|].
    by exists err, w1.
Qed.

(** Three attempts of an operation that fails every time, in a world
    that counts the calls and records the sleeps. *)
Lemma retry_exhausts_attempts_witness :
  (forall w, is_rejected (counting_fn w).1 = true)
  /\ (1 <= 3)%nat
  /\ retryAndBackoff counting_random recording_sleep 3 counting_fn true 0 3
       50%float (0%nat, [])
     = Some (Rejected 2%nat,
             [Invoked (Rejected 0%nat); Slept 25%float;
              Invoked (Rejected 1%nat); Slept 50%float;
              Invoked (Rejected 2%nat); Slept 100%float],
             (3%nat, [25%float; 50%float; 100%float])).
Proof.
  split; [reflexivity|]. split; [lia|].
  destruct (proj1 (retry_exhausts_attempts counting_random recording_sleep
                     counting_fn 3 (fun _ => eq_refl) ltac:(lia))
              3%nat 50%float (0%nat, []) ltac:(lia))
    as (err & evs & w' & Hrun & _).
  vm_compute. reflexivity.
Defined.


(* ===================================================================== *)
(*  Further properties                                                     *)
(* ===================================================================== *)

(* --------------------------------------------------------------------- *)
(*  assumeRole: the request on the wire                                    *)
(* --------------------------------------------------------------------- *)

(** Deleting the undefined members, deleting [Tags] and adding the token
    leaves exactly the members of [wireRequest], whatever [Tags] was. *)
Lemma webIdentityInput_wire (RoleArn : jsstring) (params : assumeRoleParams)
    (Tags : option (list Tag)) (token : jsstring) :
  webIdentityInput (commonAssumeRoleParams RoleArn params Tags) token
  = wireRequest RoleArn params token.
Proof.
  unfold webIdentityInput, commonAssumeRoleParams, wireRequest.
  f_equal.
  rewrite !map_filter_insert_True by done.
  rewrite !delete_insert_ne by done. do 3 f_equal.
  destruct Tags as [tags|]; simpl.
  - rewrite map_filter_insert_True by done. rewrite delete_insert_eq.
    destruct (roleExternalId params) as [e|]; simpl.
    + rewrite map_filter_insert_True by done.
      by rewrite map_filter_empty, delete_insert_ne, delete_empty.
    + rewrite map_filter_insert_False by (simpl; tauto).
      by rewrite delete_empty, map_filter_empty, delete_empty.
  - rewrite map_filter_insert_False by (simpl; tauto).
    rewrite <- map_filter_delete, delete_delete_eq.
    destruct (roleExternalId params) as [e|]; simpl.
    + rewrite delete_insert_ne by done. rewrite delete_empty.
      rewrite map_filter_insert_True by done. by rewrite map_filter_empty.
    + rewrite delete_insert_ne by done. rewrite delete_empty.
      rewrite map_filter_insert_False by (simpl; tauto).
      by rewrite delete_empty, map_filter_empty.
Qed.

Lemma resolveRoleArn_prefix (role : jsstring) (account : option jsstring)
    (arn : jsstring) :
  resolveRoleArn role account = inr arn ->
  startsWith arn (lit "arn:aws") = true
  /\ (startsWith role (lit "arn:aws") = true /\ arn = role
      \/ startsWith role (lit "arn:aws") = false /\
         exists a, account = Some a /\
                   arn = lit "arn:aws:iam::" ++ a ++ lit ":role/" ++ role).
Proof.
  unfold resolveRoleArn.
  destruct (startsWith role (lit "arn:aws")) eqn:E; simpl.
  - intros [= <-]. auto.
  - destruct account as [a|]; [|done]. intros [= <-].
    split; [reflexivity|]. right. eauto.
Qed.

Section WireFacts.
Variable ucd : Z -> GeneralCategory.
Variable path : PathModule.

Lemma selectFlow_sent_region (params : assumeRoleParams)
    (workspace : jsstring) (common : gmap string js_value) (fs : FileSystem)
    (ev : list event) (r : jsstring) (input : gmap string js_value) :
  selectFlow path params workspace common fs = (ev, Sent r input) ->
  r = region params /\ exists token, input = webIdentityInput common token.
Proof.
  unfold selectFlow, directTokenFlow, tokenFileFlow.
  repeat case_match; intros [= <- <- <-]; eauto.
Qed.

(** Whatever assumeRole dispatches is a [wireRequest], for the region of
    the call and the resolved role. *)
Lemma assumeRole_sent_wire (params : assumeRoleParams)
    (env : gmap string jsstring) (fs : FileSystem)
    (ev : list event) (r : jsstring) (input : gmap string js_value) :
  assumeRole ucd path params env fs = (ev, Sent r input) ->
  r = region params /\ exists RoleArn token,
    resolveRoleArn (roleToAssume params) (sourceAccountId params) = inr RoleArn
    /\ input = wireRequest RoleArn params token.
Proof.
  unfold assumeRole.
  destruct (required_env env) as [[[[[[rp wf] ac] at'] sha] ws]|]; [|done].
  destruct (resolveRoleArn _ _) as [e|arn] eqn:Hrole; [done|].
  pose proof (webIdentityInput_wire arn params
                (sessionTags params
                   (tagArray ucd rp wf ac at' sha
                      (env !! "GITHUB_REF"%string)))) as Hwire.
  revert Hwire.
  generalize (commonAssumeRoleParams arn params
                (sessionTags params
                   (tagArray ucd rp wf ac at' sha
                      (env !! "GITHUB_REF"%string)))).
  intros common Hwire.
  destruct (selectFlow _ _ _ _ _) as [ev' res] eqn:E.
  intros Hrun. assert (res = Sent r input) as -> by congruence.
  apply selectFlow_sent_region in E as [-> [token ->]].
  split; [done|]. exists arn, token. split; [done | apply Hwire].
Qed.

End WireFacts.

(** X1: the request that assumeRole dispatches goes to the region of the
    call and holds exactly RoleArn, RoleSessionName, DurationSeconds and
    WebIdentityToken, and ExternalId when an external id was given: no
    member is undefined, there is no Tags member, and no other key. *)
Theorem dispatched_request_members (ucd : Z -> GeneralCategory)
    (path : PathModule) (params : assumeRoleParams)
    (env : gmap string jsstring) (fs : FileSystem)
    (ev : list event) (r : jsstring) (input : gmap string js_value) :
  assumeRole ucd path params env fs = (ev, Sent r input) ->
  r = region params
  /\ (exists arn, input !! "RoleArn"%string = Some (VString arn))
  /\ input !! "RoleSessionName"%string
     = Some (VString (roleSessionName params))
  /\ input !! "DurationSeconds"%string
     = Some (VNumber (roleDurationSeconds params))
  /\ input !! "ExternalId"%string = VString <$> roleExternalId params
  /\ (exists token, input !! "WebIdentityToken"%string = Some (VString token))
  /\ (forall k v, input !! k = Some v ->
        v <> VUndefined /\
        k ∈ ["RoleArn"; "RoleSessionName"; "DurationSeconds"; "ExternalId";
             "WebIdentityToken"]%string).
Proof.
  intros H.
  apply assumeRole_sent_wire in H as (-> & arn & token & _ & ->).
  unfold wireRequest.
  split; [done|]. split; [exists arn; by simplify_map_eq|].
  split; [by simplify_map_eq|]. split; [by simplify_map_eq|].
  split.
  { repeat (rewrite lookup_insert_ne by done).
    destruct (roleExternalId params); by simplify_map_eq. }
  split; [exists token; by simplify_map_eq|].
  intros k v Hk.
  repeat (apply lookup_insert_Some in Hk as [[<- <-]|[_ Hk]];
          [split; [done | set_solver] |]).
  destruct (roleExternalId params).
  - apply lookup_singleton_Some in Hk as [<- <-]. split; [done | set_solver].
  - by rewrite lookup_empty in Hk.
Qed.

Lemma dispatched_request_members_witness :
  exists ev input,
    assumeRole ucd_unassigned posix_path sample_params sample_env empty_fs
    = (ev, Sent (lit "us-east-1") input)
    /\ input !! "ExternalId"%string = None
    /\ input !! "DurationSeconds"%string = Some (VNumber 3600).
Proof.
  destruct (assumeRole ucd_unassigned posix_path sample_params sample_env
              empty_fs) as [ev [e|r input]] eqn:Hrun;
    [vm_compute in Hrun; discriminate|].
  destruct (dispatched_request_members _ _ _ _ _ _ _ _ Hrun)
    as (-> & _ & _ & Hd & He & _).
  exists ev, input. split; [reflexivity|]. split; [exact He | exact Hd].
Defined.

(** X2: the role that is dispatched always starts with [arn:aws]: it is the
    role reference itself when that starts with [arn:aws], and else
    [arn:aws:iam::<account>:role/<name>] for the given source account. *)
Theorem dispatched_role_arn (ucd : Z -> GeneralCategory)
    (path : PathModule) (params : assumeRoleParams)
    (env : gmap string jsstring) (fs : FileSystem)
    (ev : list event) (r : jsstring) (input : gmap string js_value) :
  assumeRole ucd path params env fs = (ev, Sent r input) ->
  exists arn,
    input !! "RoleArn"%string = Some (VString arn)
    /\ startsWith arn (lit "arn:aws") = true
    /\ (startsWith (roleToAssume params) (lit "arn:aws") = true
        /\ arn = roleToAssume params
        \/ startsWith (roleToAssume params) (lit "arn:aws") = false
           /\ exists a, sourceAccountId params = Some a
                /\ arn = lit "arn:aws:iam::" ++ a ++ lit ":role/"
                           ++ roleToAssume params).
Proof.
  intros H.
  apply assumeRole_sent_wire in H as (_ & arn & token & Hrole & ->).
  exists arn. split; [unfold wireRequest; by simplify_map_eq|].
  by apply resolveRoleArn_prefix in Hrole.
Qed.

Lemma dispatched_role_arn_witness :
  exists ev input,
    assumeRole ucd_unassigned posix_path
      (with_token
         {| region := lit "eu-west-1"; roleToAssume := lit "deploy";
            roleDurationSeconds := 900; roleSessionName := lit "s";
            roleSkipSessionTagging := Some true;
            sourceAccountId := Some (lit "111122223333");
            roleExternalId := Some (lit "ext");
            webIdentityTokenFile := None; webIdentityToken := None |}
         (Some (lit "tok")))
      sample_env empty_fs
    = (ev, Sent (lit "eu-west-1") input)
    /\ input !! "RoleArn"%string
       = Some (VString (lit "arn:aws:iam::111122223333:role/deploy")).
Proof.
  match goal with
  | |- exists ev input, ?call = _ /\ _ =>
      destruct call as [ev [e|r input]] eqn:Hrun;
        [vm_compute in Hrun; discriminate|]
  end.
  destruct (dispatched_role_arn _ _ _ _ _ _ _ _ Hrun)
    as (arn & Harn & _ & [[Hp _]|(_ & a & Ha & ->)]);
    [vm_compute in Hp; discriminate|].
  injection Ha as <-.
  exists ev, input. split; [|exact Harn].
  vm_compute in Hrun. injection Hrun as <- <- <-. vm_compute. reflexivity.
Defined.

(* --------------------------------------------------------------------- *)
(*  assumeRole: the environment check                                      *)
(* --------------------------------------------------------------------- *)

Lemma required_env_Some (env : gmap string jsstring)
    (repository workflow action actor sha workspace : jsstring) :
  required_env env
    = Some (repository, workflow, action, actor, sha, workspace) ->
  forall name, name ∈ required_names -> truthy (env !! name) = true.
Proof.
  unfold required_env, required_names. intros H name Hin.
  destruct (env !! "GITHUB_REPOSITORY"%string) as [v1|] eqn:E1; [|done].
  destruct (env !! "GITHUB_WORKFLOW"%string) as [v2|] eqn:E2; [|done].
  destruct (env !! "GITHUB_ACTION"%string) as [v3|] eqn:E3; [|done].
  destruct (env !! "GITHUB_ACTOR"%string) as [v4|] eqn:E4; [|done].
  destruct (env !! "GITHUB_SHA"%string) as [v5|] eqn:E5; [|done].
  destruct (env !! "GITHUB_WORKSPACE"%string) as [v6|] eqn:E6; [|done].
  destruct (truthy (Some v1)) eqn:T1; [|done].
  destruct (truthy (Some v2)) eqn:T2; [|done].
  destruct (truthy (Some v3)) eqn:T3; [|done].
  destruct (truthy (Some v4)) eqn:T4; [|done].
  destruct (truthy (Some v5)) eqn:T5; [|done].
  destruct (truthy (Some v6)) eqn:T6; [|done].
  repeat (apply elem_of_cons in Hin as [->|Hin]; [congruence|]).
  by apply elem_of_nil in Hin.
Qed.

Lemma required_env_None (env : gmap string jsstring) :
  required_env env = None <->
  exists name, name ∈ required_names /\ truthy (env !! name) = false.
Proof.
  split.
  - unfold required_env, required_names. intros H.
    destruct (env !! "GITHUB_REPOSITORY"%string) as [[|c1 t1]|] eqn:E1;
      [exists "GITHUB_REPOSITORY"%string; rewrite E1; split; [set_solver|done]
      | | exists "GITHUB_REPOSITORY"%string; rewrite E1; split; [set_solver|done]].
    destruct (env !! "GITHUB_WORKFLOW"%string) as [[|c2 t2]|] eqn:E2;
      [exists "GITHUB_WORKFLOW"%string; rewrite E2; split; [set_solver|done]
      | | exists "GITHUB_WORKFLOW"%string; rewrite E2; split; [set_solver|done]].
    destruct (env !! "GITHUB_ACTION"%string) as [[|c3 t3]|] eqn:E3;
      [exists "GITHUB_ACTION"%string; rewrite E3; split; [set_solver|done]
      | | exists "GITHUB_ACTION"%string; rewrite E3; split; [set_solver|done]].
    destruct (env !! "GITHUB_ACTOR"%string) as [[|c4 t4]|] eqn:E4;
      [exists "GITHUB_ACTOR"%string; rewrite E4; split; [set_solver|done]
      | | exists "GITHUB_ACTOR"%string; rewrite E4; split; [set_solver|done]].
    destruct (env !! "GITHUB_SHA"%string) as [[|c5 t5]|] eqn:E5;
      [exists "GITHUB_SHA"%string; rewrite E5; split; [set_solver|done]
      | | exists "GITHUB_SHA"%string; rewrite E5; split; [set_solver|done]].
    destruct (env !! "GITHUB_WORKSPACE"%string) as [[|c6 t6]|] eqn:E6;
      [exists "GITHUB_WORKSPACE"%string; rewrite E6; split; [set_solver|done]
      | | exists "GITHUB_WORKSPACE"%string; rewrite E6; split; [set_solver|done]].
    discriminate H.
  - intros (name & Hin & Hf).
    destruct (required_env env) as [[[[[[rp wf] ac] at'] sha] ws]|] eqn:E;
      [|reflexivity].
    rewrite (required_env_Some _ _ _ _ _ _ _ E name Hin) in Hf. discriminate.
Qed.

(** X3: assumeRole throws 'Missing required environment variables...'
    exactly when one of the six required variables is unset or empty, and
    then before anything else: no event, whatever the parameters. *)
Theorem environment_checked_first (ucd : Z -> GeneralCategory)
    (path : PathModule) (params : assumeRoleParams)
    (env : gmap string jsstring) (fs : FileSystem) :
  (exists name, name ∈ required_names /\ truthy (env !! name) = false)
  <-> assumeRole ucd path params env fs = ([], Threw (Error MSG_ENV)).
Proof.
  rewrite <- required_env_None. unfold assumeRole. split.
  - by intros ->.
  - destruct (required_env env) as [[[[[[rp wf] ac] at'] sha] ws]|];
      [|reflexivity].
    unfold resolveRoleArn.
    destruct (negb _); [destruct (sourceAccountId params)|]; try done;
      destruct (selectFlow _ _ _ _ _); done.
Qed.

(* --------------------------------------------------------------------- *)
(*  assumeRole: the token-file flow                                        *)
(* --------------------------------------------------------------------- *)

(** X4: in the token-file flow, when the resolved path exists and the read
    succeeds, the contents of the file are the token of the request,
    unchanged; the path is checked once and read once. *)
Theorem token_file_contents_sent (ucd : Z -> GeneralCategory)
    (path : PathModule) (params : assumeRoleParams)
    (env : gmap string jsstring) (fs : FileSystem) (file widt : jsstring)
    (repository workflow action actor sha workspace RoleArn : jsstring) :
  reaches_flow_selection params env
    repository workflow action actor sha workspace RoleArn ->
  truthy (webIdentityToken params) = false ->
  webIdentityTokenFile params = Some file -> file <> [] ->
  let resolved :=
    if isAbsolute path file then file else join path workspace file in
  existsSync fs resolved = true ->
  readFile fs resolved = inr widt ->
  exists d,
    assumeRole ucd path params env fs
    = ([Debug d; Debug MSG_FILE_FLOW; ExistsSync resolved; ReadFile resolved],
       Sent (region params) (wireRequest RoleArn params widt)).
Proof.
  intros Hreach Htok Hfile Hne resolved Hexists Hread.
  rewrite (assumeRole_reaches ucd path _ _ fs _ _ _ _ _ _ _ Hreach).
  rewrite (selectFlow_file path _ _ _ _ _ Htok Hfile Hne).
  unfold tokenFileFlow. fold resolved. rewrite Hexists, Hread.
  rewrite webIdentityInput_wire. cbn [negb fst snd].
  unfold tagsDebug. case_match; eauto.
Qed.

Lemma token_file_contents_sent_witness :
  exists d,
    assumeRole ucd_unassigned posix_path
      (with_token sample_params None) sample_env
      (one_file_fs (lit "/home/runner/work/token.jwt") (lit "eyJ0b2tlbg"))
    = ([Debug d; Debug MSG_FILE_FLOW;
        ExistsSync (lit "/home/runner/work/token.jwt");
        ReadFile (lit "/home/runner/work/token.jwt")],
       Sent (lit "us-east-1")
         (wireRequest (lit "arn:aws:iam::111122223333:role/deploy")
            (with_token sample_params None) (lit "eyJ0b2tlbg"))).
Proof.
  refine (token_file_contents_sent ucd_unassigned posix_path
            (with_token sample_params None) sample_env
            (one_file_fs (lit "/home/runner/work/token.jwt")
               (lit "eyJ0b2tlbg"))
            (lit "token.jwt") (lit "eyJ0b2tlbg")
            (lit "octo/repo") (lit "CI (main)") (lit "configure")
            (lit "dependabot[bot]") (lit "0123abc")
            (lit "/home/runner/work")
            (lit "arn:aws:iam::111122223333:role/deploy")
            _ eq_refl eq_refl _ eq_refl eq_refl).
  - split; reflexivity.
  - discriminate.
Defined.

(** X5: in the token-file flow, when the resolved path exists and the read
    fails, assumeRole throws 'Web identity token file could not be read: '
    followed by the message of the read error, and dispatches nothing. *)
Theorem token_file_unreadable (ucd : Z -> GeneralCategory)
    (path : PathModule) (params : assumeRoleParams)
    (env : gmap string jsstring) (fs : FileSystem) (file : jsstring)
    (error : js_error)
    (repository workflow action actor sha workspace RoleArn : jsstring) :
  reaches_flow_selection params env
    repository workflow action actor sha workspace RoleArn ->
  truthy (webIdentityToken params) = false ->
  webIdentityTokenFile params = Some file -> file <> [] ->
  let resolved :=
    if isAbsolute path file then file else join path workspace file in
  existsSync fs resolved = true ->
  readFile fs resolved = inl error ->
  exists d,
    assumeRole ucd path params env fs
    = ([Debug d; Debug MSG_FILE_FLOW; ExistsSync resolved; ReadFile resolved],
       Threw (Error (MSG_UNREADABLE ++ errorMessage error))).
Proof.
  intros Hreach Htok Hfile Hne resolved Hexists Hread.
  rewrite (assumeRole_reaches ucd path _ _ fs _ _ _ _ _ _ _ Hreach).
  rewrite (selectFlow_file path _ _ _ _ _ Htok Hfile Hne).
  unfold tokenFileFlow. fold resolved. rewrite Hexists, Hread.
  cbn [negb fst snd]. unfold tagsDebug. case_match; eauto.
Qed.

Lemma token_file_unreadable_witness :
  exists d,
    assumeRole ucd_unassigned posix_path
      (with_token sample_params None) sample_env unreadable_fs
    = ([Debug d; Debug MSG_FILE_FLOW;
        ExistsSync (lit "/home/runner/work/token.jwt");
        ReadFile (lit "/home/runner/work/token.jwt")],
       Threw (Error (lit "Web identity token file could not be read: EACCES: permission denied"))).
Proof.
  refine (token_file_unreadable ucd_unassigned posix_path
            (with_token sample_params None) sample_env unreadable_fs
            (lit "token.jwt") (Error (lit "EACCES: permission denied"))
            (lit "octo/repo") (lit "CI (main)") (lit "configure")
            (lit "dependabot[bot]") (lit "0123abc")
            (lit "/home/runner/work")
            (lit "arn:aws:iam::111122223333:role/deploy")
            _ eq_refl eq_refl _ eq_refl eq_refl).
  - split; reflexivity.
  - discriminate.
Defined.

(* --------------------------------------------------------------------- *)
(*  assumeRole: every way a call can end                                   *)
(* --------------------------------------------------------------------- *)

Lemma tagsDebug_not_file_access (Tags : option (list Tag)) :
  is_file_access (tagsDebug Tags) = false.
Proof. by destruct Tags. Qed.

Lemma assumeRole_cases (ucd : Z -> GeneralCategory) (path : PathModule)
    (params : assumeRoleParams) (env : gmap string jsstring)
    (fs : FileSystem) :
  assumeRole_ending ucd path params env fs
    (assumeRole ucd path params env fs).
Proof.
  destruct (required_env env) as [[[[[[rp wf] ac] at'] sha] ws]|] eqn:Henv.
  2: { unfold assumeRole. rewrite Henv. by constructor. }
  destruct (resolveRoleArn (roleToAssume params) (sourceAccountId params))
    as [e|arn] eqn:Hrole.
  { unfold assumeRole. rewrite Henv, Hrole. revert Hrole.
    unfold resolveRoleArn.
    destruct (startsWith (roleToAssume params) (lit "arn:aws")) eqn:Hsw;
      cbn [negb]; [done|].
    destruct (sourceAccountId params) eqn:Hacc; [done|].
    intros [= <-]. by constructor. }
  assert (reaches_flow_selection params env rp wf ac at' sha ws arn)
    as Hreach by done.
  rewrite (assumeRole_reaches ucd path _ _ fs _ _ _ _ _ _ _ Hreach).
  fold (tags_line ucd params env rp wf ac at' sha).
  destruct (webIdentityToken params) as [[|c t]|] eqn:Htok.
  2: { rewrite (selectFlow_direct path params ws _ fs (c :: t) Htok)
         by done.
       unfold directTokenFlow. cbn [fst snd].
       rewrite webIdentityInput_wire. by eapply EndsDirectToken. }
  all: destruct (webIdentityTokenFile params) as [[|d f]|] eqn:Hfile.
  all: try (rewrite selectFlow_neither by (by rewrite ?Htok, ?Hfile);
            cbn [fst snd]; eapply EndsNoSource; eauto;
            by rewrite ?Htok, ?Hfile).
  all: rewrite (selectFlow_file path params ws _ fs (d :: f))
         by (by rewrite ?Htok).
  all: unfold tokenFileFlow.
  all: fold (token_file_path path ws (d :: f)).
  all: destruct (existsSync fs (token_file_path path ws (d :: f)))
         eqn:Hexists; cbn [negb fst snd].
  all: try (eapply EndsFileMissing; eauto; by rewrite ?Htok).
  all: destruct (readFile fs (token_file_path path ws (d :: f)))
         as [error|widt] eqn:Hread; cbn [fst snd].
  all: try (eapply EndsFileUnreadable; eauto; by rewrite ?Htok).
  all: rewrite webIdentityInput_wire.
  all: eapply EndsFileToken; eauto; by rewrite ?Htok.
Qed.

Lemma assumeRole_ending_unique (ucd : Z -> GeneralCategory)
    (path : PathModule) (params : assumeRoleParams)
    (env : gmap string jsstring) (fs : FileSystem) (r : list event * outcome) :
  assumeRole_ending ucd path params env fs r ->
  r = assumeRole ucd path params env fs.
Proof.
  intros H.
  destruct H as [Henv | [v Henv] Hsw Hacc
                | rp wf ac at' sha ws arn token Hreach Htok Hne
                | rp wf ac at' sha ws arn file Hreach Htok Hfile Hne Hex
                | rp wf ac at' sha ws arn file widt Hreach Htok Hfile Hne
                    Hex Hread
                | rp wf ac at' sha ws arn file error Hreach Htok Hfile Hne
                    Hex Hread
                | rp wf ac at' sha ws arn Hreach Htok Hfile].
  - unfold assumeRole. by rewrite Henv.
  - unfold assumeRole. rewrite Henv.
    destruct v as [[[[[rp wf] ac] at'] sha] ws].
    unfold resolveRoleArn. by rewrite Hsw, Hacc.
  - rewrite (assumeRole_reaches ucd path _ _ fs _ _ _ _ _ _ _ Hreach).
    rewrite (selectFlow_direct path params ws _ fs token Htok Hne).
    unfold directTokenFlow. cbn [fst snd].
    by rewrite webIdentityInput_wire.
  - rewrite (assumeRole_reaches ucd path _ _ fs _ _ _ _ _ _ _ Hreach).
    rewrite (selectFlow_file path params ws _ fs file Htok Hfile Hne).
    unfold tokenFileFlow. fold (token_file_path path ws file).
    by rewrite Hex.
  - rewrite (assumeRole_reaches ucd path _ _ fs _ _ _ _ _ _ _ Hreach).
    rewrite (selectFlow_file path params ws _ fs file Htok Hfile Hne).
    unfold tokenFileFlow. fold (token_file_path path ws file).
    rewrite Hex, Hread. cbn [negb fst snd].
    by rewrite webIdentityInput_wire.
  - rewrite (assumeRole_reaches ucd path _ _ fs _ _ _ _ _ _ _ Hreach).
    rewrite (selectFlow_file path params ws _ fs file Htok Hfile Hne).
    unfold tokenFileFlow. fold (token_file_path path ws file).
    by rewrite Hex, Hread.
  - rewrite (assumeRole_reaches ucd path _ _ fs _ _ _ _ _ _ _ Hreach).
    by rewrite (selectFlow_neither path params ws _ fs Htok Hfile).
Qed.

(** X6: a call of assumeRole ends in one of seven ways, and which one is
    fixed by the parameters, the environment and the file system: the
    environment error when a required variable is missing; else the
    assertion on the account id when the role is not an ARN and no
    account is given; else, after the debug line on the tags, a dispatch
    of the given token when it is not empty; else, when a token file is
    given, after the debug line of the file flow and the existence check
    of the resolved path, the missing-file error, or after the read a
    dispatch of the file's contents or the read error; else the error that
    neither token was given.  The relation holds of what the call does and
    of nothing else, so the call throws no other error and dispatches
    only after every check has passed. *)
Theorem assumeRole_outcomes (ucd : Z -> GeneralCategory) (path : PathModule)
    (params : assumeRoleParams) (env : gmap string jsstring)
    (fs : FileSystem) :
  assumeRole_ending ucd path params env fs
    (assumeRole ucd path params env fs)
  /\ (forall r, assumeRole_ending ucd path params env fs r ->
        r = assumeRole ucd path params env fs).
Proof.
  split; [apply assumeRole_cases | apply assumeRole_ending_unique].
Qed.

(** X7: the only file that assumeRole touches is the resolved token file:
    its existence is checked at most once, it is read at most once, only
    after the check said it exists, and nothing else is checked or read. *)
Theorem file_access_discipline (ucd : Z -> GeneralCategory)
    (path : PathModule) (params : assumeRoleParams)
    (env : gmap string jsstring) (fs : FileSystem) :
  let accesses := file_accesses (assumeRole ucd path params env fs).1 in
  accesses = []
  \/ (exists p, accesses = [ExistsSync p] /\ existsSync fs p = false)
  \/ (exists p, accesses = [ExistsSync p; ReadFile p]
                /\ existsSync fs p = true).
Proof.
  cbv zeta.
  destruct (assumeRole_cases ucd path params env fs);
    unfold file_accesses, tags_line; cbn [fst List.filter];
    rewrite ?tagsDebug_not_file_access; cbn; eauto.
Qed.

Lemma selectFlow_common (path : PathModule) (params : assumeRoleParams)
    (workspace : jsstring) (common common' : gmap string js_value)
    (fs : FileSystem) :
  (forall token, webIdentityInput common token = webIdentityInput common' token) ->
  selectFlow path params workspace common fs
  = selectFlow path params workspace common' fs.
Proof.
  intros H. unfold selectFlow, directTokenFlow, tokenFileFlow.
  repeat case_match; rewrite ?H; congruence.
Qed.

Lemma required_env_ref (env : gmap string jsstring) (ref : jsstring) :
  required_env (<["GITHUB_REF"%string := ref]> env) = required_env env.
Proof. unfold required_env. by rewrite !lookup_insert_ne by done. Qed.

(** X8: the session tags never reach the provider: switching
    roleSkipSessionTagging, setting GITHUB_REF or changing the engine's
    Unicode table changes neither how the call ends (the request that is
    dispatched or the error that is thrown) nor the files it touches;
    only the debug line about the tags differs. *)
Theorem tagging_does_not_change_outcome (ucd ucd' : Z -> GeneralCategory)
    (path : PathModule) (params : assumeRoleParams) (skip : option bool)
    (env : gmap string jsstring) (ref : jsstring) (fs : FileSystem) :
  let run := assumeRole ucd path params env fs in
  let run' :=
    assumeRole ucd' path (with_skip params skip)
      (<["GITHUB_REF"%string := ref]> env) fs in
  run'.2 = run.2 /\ tail run'.1 = tail run.1.
Proof.
  cbv zeta. unfold assumeRole. rewrite required_env_ref.
  destruct (required_env env) as [[[[[[rp wf] ac] at'] sha] ws]|]; [|done].
  change (roleToAssume (with_skip params skip)) with (roleToAssume params).
  change (sourceAccountId (with_skip params skip))
    with (sourceAccountId params).
  destruct (resolveRoleArn _ _) as [e|arn]; [done|].
  change (selectFlow path (with_skip params skip))
    with (selectFlow path params).
  rewrite (selectFlow_common path params ws
             (commonAssumeRoleParams arn (with_skip params skip) _)
             (commonAssumeRoleParams arn params
                (sessionTags params
                   (tagArray ucd rp wf ac at' sha
                      (env !! "GITHUB_REF"%string)))) fs).
  - by destruct (selectFlow _ _ _ _ _).
  - intros token. by rewrite !webIdentityInput_wire.
Qed.

(* --------------------------------------------------------------------- *)
(*  The sanitizers: fixed points, strings without surrogates, lengths      *)
(* --------------------------------------------------------------------- *)

Section ReplaceClassMore.
Variable cls : Z -> bool.
Hypothesis cls_underscore : cls 0x5F = true.
Hypothesis cls_lead : forall u, is_lead u = true -> cls u = false.

Local Abbreviation R' :=
  (replaceAllU (fun c => negb (cls c)) SANITIZATION_CHARACTER).
Local Abbreviation sanitize' :=
  (fun s => slice0 MAX_TAG_VALUE_LENGTH (R' s)).

Lemma codePoints_clean (s : jsstring) :
  forallb cls (codePoints s) = true -> clean cls s.
Proof.
  induction s as [| u | u v t IHt IHvt] using jsstring_pair_ind.
  - constructor.
  - simpl. rewrite andb_true_r. intros Hu.
    constructor; [done | | constructor].
    destruct (is_lead u) eqn:L; [|done]. by rewrite (cls_lead _ L) in Hu.
  - change (codePoints (u :: v :: t))
      with (if is_lead u && is_trail v then pair_cp u v :: codePoints t
            else u :: codePoints (v :: t)).
    destruct (is_lead u && is_trail v) eqn:E.
    + apply andb_prop in E as [Hu Hv]. cbn [forallb]. intros H.
      apply andb_prop in H as [Hc Ht]. apply clean_pair; auto.
    + cbn [forallb]. intros H. apply andb_prop in H as [Hc Ht].
      constructor; [done | | auto].
      destruct (is_lead u) eqn:L; [|done]. by rewrite (cls_lead _ L) in Hc.
Qed.

(** The strings that sanitizing leaves alone are those of at most 256
    units whose code points are all in the class. *)
Lemma sanitize_fixed_iff (s : jsstring) :
  sanitize' s = s <->
  (length s <= 256)%nat /\ forallb cls (codePoints s) = true.
Proof.
  unfold slice0, MAX_TAG_VALUE_LENGTH. split.
  - intros Hfix.
    pose proof (replaceAllU_length (fun c => negb (cls c)) s) as Hle.
    assert (length s = Nat.min 256 (length (R' s))) as Hlen
      by (rewrite <- Hfix at 1; apply length_take).
    assert (R' s = s) as HR by (rewrite <- Hfix at 2; symmetry; apply take_ge; lia).
    split; [lia|].
    rewrite <- HR. apply clean_codePoints, R_clean; assumption.
  - intros [Hlen Hcls].
    rewrite (clean_fixed _ _ (codePoints_clean _ Hcls)). by apply take_ge.
Qed.




End ReplaceClassMore.

Lemma variables_class_workflow (ucd : Z -> GeneralCategory) (c : Z) :
  variables_class ucd c = true -> workflow_class ucd c = true.
Proof.
  intros H. destruct (range_only c) eqn:E.
  - unfold range_only in E. unfold workflow_class.
    assert ((0x2E <=? c) && (c <=? 0x40) = true) as -> by lia.
    rewrite !orb_true_r. reflexivity.
  - by rewrite workflow_class_variables.
Qed.

Lemma variables_fixed_iff (ucd : Z -> GeneralCategory) (s : jsstring) :
  sanitizeGitHubVariables ucd s = s <->
  (length s <= 256)%nat /\
  forallb (variables_class ucd) (codePoints s) = true.
Proof.
  apply (sanitize_fixed_iff (variables_class ucd)
           (variables_class_underscore ucd) (variables_class_lead ucd) s).
Qed.

(** X9: the values that a sanitizer returns unchanged are exactly the
    strings of at most 256 code units all of whose code points are in the
    sanitizer's class (a lone surrogate is in neither class); a value that
    sanitizeGitHubVariables leaves alone is left alone by
    sanitizeGithubWorkflowName too. *)
Theorem sanitizer_fixed_points (ucd : Z -> GeneralCategory) (s : jsstring) :
  (sanitizeGitHubVariables ucd s = s <->
   (length s <= 256)%nat /\
   forallb (variables_class ucd) (codePoints s) = true)
  /\ (sanitizeGithubWorkflowName ucd s = s <->
      (length s <= 256)%nat /\
      forallb (workflow_class ucd) (codePoints s) = true)
  /\ (sanitizeGitHubVariables ucd s = s ->
      sanitizeGithubWorkflowName ucd s = s).
Proof.
  pose proof (variables_fixed_iff ucd s) as Hv.
  pose proof (sanitize_fixed_iff (workflow_class ucd)
                (workflow_class_underscore ucd) (workflow_class_lead ucd) s)
    as Hw.
  split; [exact Hv | split; [exact Hw|]].
  intros H. apply Hw. apply Hv in H as [Hlen Hcls]. split; [done|].
  by apply (forallb_mono _ _ _ (variables_class_workflow ucd)).
Qed.



(** X11: no sanitizer returns more code units than it was given: the two
    tag-value sanitizers return at most min(256, length), and
    sanitizeGithubActor returns exactly as many. *)
Theorem sanitizers_never_longer (ucd : Z -> GeneralCategory) (s : jsstring) :
  (length (sanitizeGitHubVariables ucd s) <= Nat.min 256 (length s))%nat
  /\ (length (sanitizeGithubWorkflowName ucd s)
      <= Nat.min 256 (length s))%nat
  /\ length (sanitizeGithubActor s) = length s.
Proof.
  unfold sanitizeGitHubVariables, sanitizeGithubWorkflowName, slice0,
    MAX_TAG_VALUE_LENGTH.
  rewrite !length_take.
  pose proof (replaceAllU_length (fun c => negb (variables_class ucd c)) s).
  pose proof (replaceAllU_length (fun c => negb (workflow_class ucd c)) s).
  rewrite sanitizeGithubActor_map, length_map. lia.
Qed.

(** X12: sanitizeGithubActor is idempotent, it leaves exactly the names
    without [[] and []] unchanged, and it works unit by unit: the image of
    a concatenation is the concatenation of the images. *)
Theorem sanitizeGithubActor_algebra (a b : jsstring) :
  sanitizeGithubActor (sanitizeGithubActor a) = sanitizeGithubActor a
  /\ (sanitizeGithubActor a = a <->
      Forall (fun u => u <> 0x5B /\ u <> 0x5D) a)
  /\ sanitizeGithubActor (a ++ b)
     = sanitizeGithubActor a ++ sanitizeGithubActor b.
Proof.
  rewrite !sanitizeGithubActor_map. split; [|split].
  - rewrite <- list_fmap_compose. apply list_fmap_ext. intros _ u _.
    unfold compose, bracket_subst.
    destruct ((u =? 0x5B) || (u =? 0x5D)) eqn:E; [reflexivity|].
    by rewrite E.
  - induction a as [|u a IH]; [by split|]. cbn [map]. split.
    + intros [= Hu Ha]. constructor; [|by apply IH].
      unfold bracket_subst in Hu.
      destruct ((u =? 0x5B) || (u =? 0x5D)) eqn:E; lia.
    + intros Hall. apply Forall_cons in Hall as [[H1 H2] Ha]. f_equal.
      * unfold bracket_subst.
        assert ((u =? 0x5B) || (u =? 0x5D) = false) as -> by lia. done.
      * by apply IH.
  - apply map_app.
Qed.

(* --------------------------------------------------------------------- *)
(*  retryAndBackoff: the shape of a run, runs that never end               *)
(* --------------------------------------------------------------------- *)

Section RetryMore.
Context {World T E : Type}.
Variable random : World -> float * World.
Variable sleep : float -> World -> World.
Variable fn : World -> settled T E * World.

Local Abbreviation retry' := (retryAndBackoff random sleep).

Lemma retry_shape (fuel retries maxRetries : nat) (base : float) (w : World)
    res evs w' :
  (retries < maxRetries)%nat ->
  retry' fuel fn true retries maxRetries base w = Some (res, evs, w') ->
  (1 <= invocations evs <= maxRetries - retries)%nat
  /\ (exists errs, results evs = map Rejected errs ++ [res])
  /\ (forall v, res = Resolved v ->
        last evs = Some (Invoked (Resolved v))
        /\ length (delays evs) = (invocations evs - 1)%nat).
Proof.
  revert retries w res evs w'.
  induction fuel as [|fuel IH]; intros retries w res evs w' Hlt H; [done|].
  cbn [retryAndBackoff] in H. destruct (fn w) as [[v|err] w1].
  { injection H as <- <- <-. unfold invocations. cbn.
    split; [lia|]. split; [by exists []|]. by intros v' [= <-]. }
  cbn [negb] in H. destruct (random w1) as [r w2].
  destruct (S retries =? maxRetries)%nat eqn:Heq.
  { injection H as <- <- <-. unfold invocations. cbn.
    split; [lia|]. split; [by exists []|]. done. }
  apply Nat.eqb_neq in Heq.
  destruct (retry' fuel fn true (S retries) maxRetries base _)
    as [[[res0 evs0] w0]|] eqn:Hrec; [|done].
  injection H as <- <- <-.
  destruct (IH (S retries) _ _ _ _ ltac:(lia) Hrec)
    as (Hinv & [errs Herrs] & Hres).
  rewrite invocations_failed_try. split; [lia|]. split.
  - exists (err :: errs). rewrite results_invoked, results_slept, Herrs.
    reflexivity.
  - intros v ->. destruct (Hres v eq_refl) as [Hlast Hlen]. split.
    + change (Invoked (Rejected err) :: Slept (r * (Math_pow2 retries * base))%float :: evs0)
        with ([Invoked (Rejected err); Slept (r * (Math_pow2 retries * base))%float] ++ evs0).
      rewrite last_app, Hlast. reflexivity.
    + rewrite delays_invoked, delays_slept. cbn [length]. lia.
Qed.

Lemma retry_past_limit (fuel retries maxRetries : nat) (base : float) (w : World) :
  (forall w, is_rejected (fn w).1 = true) ->
  (maxRetries <= retries)%nat ->
  retry' fuel fn true retries maxRetries base w = None.
Proof.
  intros Hfail. revert retries w.
  induction fuel as [|fuel IH]; intros retries w Hle; [done|].
  cbn [retryAndBackoff]. pose proof (Hfail w) as Hw.
  destruct (fn w) as [[v|err] w1]; [done|]. cbn [negb].
  destruct (random w1) as [r w2].
  assert ((S retries =? maxRetries)%nat = false) as ->
    by (apply Nat.eqb_neq; lia).
  by rewrite IH by lia.
Qed.

End RetryMore.

(** X13: a retryable run that starts below [maxRetries] and ends has made
    between one and [maxRetries - retries] calls, for any operation; every
    call but the last failed; and when the last call succeeds the run ends
    with it: no sleep follows, so there is one sleep fewer than calls. *)
Theorem retry_run_shape {World T E : Type}
    (random : World -> float * World) (sleep : float -> World -> World)
    (fn : World -> settled T E * World)
    (fuel retries maxRetries : nat) (base : float) (w : World) res evs w' :
  (retries < maxRetries)%nat ->
  retryAndBackoff random sleep fuel fn true retries maxRetries base w
    = Some (res, evs, w') ->
  (1 <= invocations evs <= maxRetries - retries)%nat
  /\ (exists errs, results evs = map Rejected errs ++ [res])
  /\ (forall v, res = Resolved v ->
        last evs = Some (Invoked (Resolved v))
        /\ length (delays evs) = (invocations evs - 1)%nat).
Proof. apply retry_shape. Qed.

Lemma retry_run_shape_witness :
  (0 < 3)%nat
  /\ exists res evs w',
       retryAndBackoff half_random no_sleep 5 failing_fn true 0 3 50%float 0%nat
         = Some (res, evs, w')
       /\ (1 <= invocations evs <= 3 - 0)%nat.
Proof.
  split; [lia|].
  destruct (retryAndBackoff half_random no_sleep 5 failing_fn true 0 3 50%float 0%nat)
    as [[[res evs] w']|] eqn:Hrun; [|vm_compute in Hrun; discriminate].
  exists res, evs, w'. split; [reflexivity|].
  refine (proj1 (retry_run_shape half_random no_sleep failing_fn
                   5 0 3 50%float 0%nat res evs w' _ Hrun)).
  lia.
Defined.

(** X14: the recursion of retryAndBackoff has no exit once [retries] is at
    or above [maxRetries] (so for [maxRetries = 0]): for an operation that
    fails on every call, a retryable run then never ends, whatever the
    depth allowed. *)
Theorem retry_never_ends_past_limit {World T E : Type}
    (random : World -> float * World) (sleep : float -> World -> World)
    (fn : World -> settled T E * World)
    (fuel retries maxRetries : nat) (base : float) (w : World) :
  (forall w, is_rejected (fn w).1 = true) ->
  (maxRetries <= retries)%nat ->
  retryAndBackoff random sleep fuel fn true retries maxRetries base w = None.
Proof. apply retry_past_limit. Qed.

Lemma retry_never_ends_past_limit_witness :
  (forall w, is_rejected (failing_fn w).1 = true)
  /\ (0 <= 0)%nat
  /\ retryAndBackoff half_random no_sleep 1000 failing_fn true 0 0 50%float 0%nat
     = None.
Proof.
  split; [reflexivity|]. split; [lia|].
  apply (retry_never_ends_past_limit half_random no_sleep failing_fn
           1000 0 0 50%float 0%nat (fun _ => eq_refl)).
  lia.
Defined.

(* --------------------------------------------------------------------- *)
(*  helpers.ts: exportCredentials and exportAccountId                      *)
(* --------------------------------------------------------------------- *)

#[local] Set Warnings "-clear-no-such-hyp".

Ltac split_field f :=
  destruct f as [[|? ?]|]; cbn [mbind option_bind].

(** X16: exportCredentials never exports a credential before masking it:
    every export of a non-empty value comes right after the setSecret of
    that same value. *)
Theorem exported_values_are_masked (creds : option Credentials)
    (env : gmap string jsstring) (i : nat) (name : string) (v : jsstring) :
  exportCredentials creds env !! i = Some (ExportVariable name v) ->
  v <> [] ->
  exists j, i = S j /\ exportCredentials creds env !! j = Some (SetSecret v).
Proof.
  unfold exportCredentials.
  destruct creds as [[a s t]|]; cbn [mbind option_bind AccessKeyId
    SecretAccessKey SessionToken];
    [split_field a; split_field s; split_field t|];
    destruct (truthy (env !! "AWS_SESSION_TOKEN"%string));
    cbn [app]; intros Hi Hv;
    repeat (destruct i as [|i]; cbn in Hi;
            [first [discriminate Hi
                   | injection Hi as <- <-;
                     first [done | eexists; split; reflexivity]]
            | try discriminate Hi]).
Qed.

Lemma exported_values_are_masked_witness :
  exportCredentials (Some sample_creds) ∅ !! 1%nat
    = Some (ExportVariable "AWS_ACCESS_KEY_ID" (lit "AKIAEXAMPLE"))
  /\ exportCredentials (Some sample_creds) ∅ !! 0%nat
     = Some (SetSecret (lit "AKIAEXAMPLE")).
Proof.
  split; [reflexivity|].
  destruct (exported_values_are_masked (Some sample_creds) ∅ 1
              "AWS_ACCESS_KEY_ID" (lit "AKIAEXAMPLE") eq_refl)
    as (j & Hj & Hsecret); [discriminate|].
  injection Hj as <-. exact Hsecret.
Defined.

(** X17: exportCredentials exports an empty value only to clear a stale
    session token: the empty string is exported exactly for
    AWS_SESSION_TOKEN, exactly when the credentials carry no session token
    while the environment still has a non-empty one; an access key id or a
    secret key that is missing or empty is not exported at all, and no
    empty value is ever registered as a secret. *)
Theorem empty_export_clears_session_token (creds : option Credentials)
    (env : gmap string jsstring) :
  (forall name,
      ExportVariable name [] ∈ exportCredentials creds env <->
      name = "AWS_SESSION_TOKEN"%string
      /\ truthy (creds ≫= SessionToken) = false
      /\ truthy (env !! "AWS_SESSION_TOKEN"%string) = true)
  /\ (SetSecret [] ∉ exportCredentials creds env)
  /\ (truthy (creds ≫= AccessKeyId) = false ->
      forall v, ExportVariable "AWS_ACCESS_KEY_ID" v
                ∉ exportCredentials creds env)
  /\ (truthy (creds ≫= SecretAccessKey) = false ->
      forall v, ExportVariable "AWS_SECRET_ACCESS_KEY" v
                ∉ exportCredentials creds env).
Proof.
  unfold exportCredentials.
  destruct creds as [[a s t]|]; cbn [mbind option_bind AccessKeyId
    SecretAccessKey SessionToken];
    [split_field a; split_field s; split_field t|];
    destruct (truthy (env !! "AWS_SESSION_TOKEN"%string));
    cbn [app truthy];
    rewrite ?elem_of_cons, ?elem_of_nil;
    (split; [intros name; rewrite ?elem_of_cons, ?elem_of_nil; naive_solver
            | split; [naive_solver
                     | split; intros ? ?; rewrite ?elem_of_cons, ?elem_of_nil;
                       naive_solver]]).
Qed.

(** X18: exportAccountId sets the output aws-account-id exactly when it
    returns, to the id it returns, and that id is the non-empty Account of
    the response.  The id is registered as a secret first exactly when
    maskAccountId is a non-empty string, whatever the string says.  A
    rejected call is handed on unchanged, a missing or empty Account
    throws 'Could not get Account ID from STS...', and in both cases
    nothing is output or masked. *)
Theorem exportAccountId_output (identity : js_error + option jsstring)
    (maskAccountId : option jsstring) :
  let run := exportAccountId identity maskAccountId in
  (forall id,
      run.2 = inr id <-> identity = inr (Some id) /\ id <> [])
  /\ (forall id,
        run.2 = inr id ->
        run.1 = (if truthy maskAccountId then [SetSecret id] else [])
                ++ [SetOutput "aws-account-id" id])
  /\ (forall e,
        run.2 = inl e ->
        run.1 = [] /\
        (identity = inl e \/
         e = Error MSG_NO_ACCOUNT /\
         (identity = inr None \/ identity = inr (Some [])))).
Proof.
  cbv zeta. unfold exportAccountId.
  destruct identity as [e|[[|c a]|]]; cbn [fst snd].
  - split; [intros id; split; [done | by intros [[=] _]]|].
    split; [done|]. intros e' [= <-]. auto.
  - split; [intros id; split; [done | by intros [[= <-] ?]]|].
    split; [done|]. intros e' [= <-]. auto.
  - split.
    + intros id; split; [by intros [= <-] | by intros [[= <-] _]].
    + split; [by intros id [= <-] | done].
  - split; [intros id; split; [done | by intros [[=] _]]|].
    split; [done|]. intros e' [= <-]. auto.
Qed.
